(** * Strava activity export: the resilient paginated fetch client

    A shallow embedding of [strava/fetch_strava_activities.py]:
    [refresh_access_token], [make_api_request] and [main] (pager, record
    normaliser, hand-over to the output files), followed by the properties
    of the natural-language specification that concern them.

    Conventions of the embedding.
    - Python objects decoded from JSON are the inductive type [value];
      dicts are association lists in insertion order.
    - Python floats are exact rationals ([Q]): binary rounding, overflow,
      NaN and infinities are not represented.  [round(x, n)] rounds the
      exact value half-to-even, as Python does on the value it holds.
    - The outside world (the HTTP server, the token endpoint, the file
      system) is an oracle [world]; every interaction is appended to the
      [trace] of the [state], in the order the program performs it.
    - Exceptions are an inductive type with one constructor per exception
      class or [raise] site of the script.
    - Console output ([print]) is not represented. *)

From Stdlib Require Import ZArith QArith Qabs List String Ascii Bool Lia.
From Stdlib Require Import DecimalString.
Import ListNotations.

Set Implicit Arguments.
Set Warnings "-register-all".

Open Scope string_scope.
Open Scope list_scope.
Open Scope Z_scope.

(** ** Python values and exceptions *)

Module Py.

Inductive value : Type :=
| VNone
| VBool (b : bool)
| VInt (z : Z)
| VFloat (q : Q)
| VStr (s : string)
| VList (l : list value)
| VDict (d : list (string * value)).

(** One constructor per exception class the script can meet, and one per
    [raise Exception(...)] site, carrying what the message interpolates. *)
Inductive exn : Type :=
| ValueError (msg : string)
| TypeError
| AttributeError
| KeyError (key : string)
| OverflowError
| OSError
| RequestException (kind : string)     (* network-level fault of requests.get/post *)
| HTTPError (status : Z)               (* response.raise_for_status() *)
| JSONDecodeError                      (* response.json() on a non-JSON body *)
| RefreshFailed (status : Z) (text : string)
    (* Exception(f"Failed to refresh token: {status_code} - {text}") *)
| ApiRequestFailed (max_retries : Z) (cause : exn)
    (* Exception(f"API request failed after {max_retries} attempts: {e}") *)
| UnexpectedError.
    (* Exception("Unexpected error in API request") *)

(** [except requests.exceptions.RequestException]: [HTTPError] and, in
    current releases of requests, its [JSONDecodeError] are subclasses. *)
Definition is_RequestException (e : exn) : bool :=
  match e with
  | RequestException _ | HTTPError _ | JSONDecodeError => true
  | _ => false
  end.

Inductive result (A : Type) : Type :=
| Ok (a : A)
| Raise (e : exn).
Arguments Ok {A} a.
Arguments Raise {A} e.

Definition rbind {A B} (r : result A) (k : A -> result B) : result B :=
  match r with
  | Ok a => k a
  | Raise e => Raise e
  end.

(** Truth value of an object, as [not data] and [all([...])] test it. *)
Definition truthy (v : value) : bool :=
  match v with
  | VNone => false
  | VBool b => b
  | VInt z => negb (z =? 0)
  | VFloat q => negb (Qnum q =? 0)
  | VStr s => negb (String.eqb s "")
  | VList l => match l with [] => false | _ => true end
  | VDict d => match d with [] => false | _ => true end
  end.

Fixpoint dict_get (d : list (string * value)) (k : string) : option value :=
  match d with
  | [] => None
  | (k', v) :: d' => if String.eqb k' k then Some v else dict_get d' k
  end.

(** [obj[key]] with a string key. *)
Definition getitem (obj : value) (k : string) : result value :=
  match obj with
  | VDict d =>
      match dict_get d k with
      | Some v => Ok v
      | None => Raise (KeyError k)
      end
  | _ => Raise TypeError
  end.

(** [obj.get(key, default)]. *)
Definition get (obj : value) (k : string) (default : value) : result value :=
  match obj with
  | VDict d =>
      match dict_get d k with
      | Some v => Ok v
      | None => Ok default
      end
  | _ => Raise AttributeError
  end.

(** The number an object stands for in arithmetic ([bool] is a subclass of
    [int]); [None] for objects that [/] and [* 3.6] reject. *)
Definition as_number (v : value) : option Q :=
  match v with
  | VInt z => Some (inject_Z z)
  | VFloat q => Some q
  | VBool b => Some (if b then 1%Q else 0%Q)
  | _ => None
  end.

(** [v / d] for a non-zero integer literal [d]: true division. *)
Definition truediv (v : value) (d : Z) : result Q :=
  match as_number v with
  | Some q => Ok (q / inject_Z d)%Q
  | None => Raise TypeError
  end.

(** [v * f] for a float literal [f]. *)
Definition mul_float (v : value) (f : Q) : result Q :=
  match as_number v with
  | Some q => Ok (q * f)%Q
  | None => Raise TypeError
  end.

(** Nearest integer, ties to the even one. *)
Definition round_half_even (x : Q) : Z :=
  let n := Qnum x in
  let d := Zpos (Qden x) in
  let q := n / d in
  let r := n mod d in
  match 2 * r ?= d with
  | Lt => q
  | Gt => q + 1
  | Eq => if Z.even q then q else q + 1
  end.

(** [round(x, ndigits)] on a float. *)
Definition round (x : Q) (ndigits : nat) : Q :=
  let scale := Pos.pow 10 (Pos.of_nat ndigits) in
  Qred (Qmake (round_half_even (x * inject_Z (Zpos scale))) scale).

(** [for x in obj]: the items the loop visits, when [obj] is iterable. *)
Definition iter (obj : value) : result (list value) :=
  match obj with
  | VList l => Ok l
  | VDict d => Ok (map (fun kv => VStr (fst kv)) d)
  | VStr s => Ok (map (fun c => VStr (String c EmptyString)) (list_ascii_of_string s))
  | _ => Raise TypeError
  end.

End Py.
Export Py.

Notation "x <- r ;;; k" := (rbind r (fun x => k))
  (at level 61, r at next level, right associativity).

(** ** The record normaliser (the dict literal of [main], lines 141-157) *)

Module Normalizer.

Definition row : Type := list (string * value).

(** The keys of the dict literal, in the order it lists them. *)
Definition ROW_FIELDS : list string :=
  [ "id"; "name"; "sport_type"; "start_date"; "distance_km";
    "moving_time_min"; "elapsed_time_min"; "average_speed_kmph";
    "max_speed_kmph"; "total_elevation_gain_m"; "average_heartrate";
    "max_heartrate"; "calories"; "trainer"; "commute" ].

(** [round(activity.get(key, 0) / 1000, 2)]: the distance conversion. *)
Definition distance_km (raw : value) : result value :=
  x <- truediv raw 1000 ;;; Ok (VFloat (round x 2)).

(** [round(activity.get(key, 0) / 60, 1)]. *)
Definition minutes (raw : value) : result value :=
  x <- truediv raw 60 ;;; Ok (VFloat (round x 1)).

(** [round(activity.get(key, 0) * 3.6, 2)]. *)
Definition kmph (raw : value) : result value :=
  x <- mul_float raw (36 # 10) ;;; Ok (VFloat (round x 2)).

(** The entries are evaluated in the order of the literal; the default
    [activity["type"]] of [sport_type] is an argument, so it is evaluated
    (and may raise) whether or not [sport_type] is present. *)
Definition normalize (activity : value) : result row :=
  id <- getitem activity "id" ;;;
  name <- getitem activity "name" ;;;
  type <- getitem activity "type" ;;;
  sport_type <- get activity "sport_type" type ;;;
  start_date <- getitem activity "start_date_local" ;;;
  distance <- get activity "distance" (VInt 0) ;;;
  distance_km <- distance_km distance ;;;
  moving_time <- get activity "moving_time" (VInt 0) ;;;
  moving_time_min <- minutes moving_time ;;;
  elapsed_time <- get activity "elapsed_time" (VInt 0) ;;;
  elapsed_time_min <- minutes elapsed_time ;;;
  average_speed <- get activity "average_speed" (VInt 0) ;;;
  average_speed_kmph <- kmph average_speed ;;;
  max_speed <- get activity "max_speed" (VInt 0) ;;;
  max_speed_kmph <- kmph max_speed ;;;
  total_elevation_gain <- get activity "total_elevation_gain" (VStr "") ;;;
  average_heartrate <- get activity "average_heartrate" (VStr "") ;;;
  max_heartrate <- get activity "max_heartrate" (VStr "") ;;;
  calories <- get activity "calories" (VStr "") ;;;
  trainer <- get activity "trainer" (VInt 0) ;;;
  commute <- get activity "commute" (VInt 0) ;;;
  Ok [ ("id", id);
       ("name", name);
       ("sport_type", sport_type);
       ("start_date", start_date);
       ("distance_km", distance_km);
       ("moving_time_min", moving_time_min);
       ("elapsed_time_min", elapsed_time_min);
       ("average_speed_kmph", average_speed_kmph);
       ("max_speed_kmph", max_speed_kmph);
       ("total_elevation_gain_m", total_elevation_gain);
       ("average_heartrate", average_heartrate);
       ("max_heartrate", max_heartrate);
       ("calories", calories);
       ("trainer", trainer);
       ("commute", commute) ].

(** [for activity in data: all_activities.append({...})]. *)
Fixpoint append_rows (data : list value) (all_activities : list row)
  : result (list row) :=
  match data with
  | [] => Ok all_activities
  | activity :: data' =>
      r <- normalize activity ;;;
      append_rows data' (all_activities ++ [r])
  end.

(** Whether the raw record carries a key. *)
Definition has_key (activity : value) (k : string) : bool :=
  match activity with
  | VDict d => match dict_get d k with Some _ => true | None => false end
  | _ => false
  end.

End Normalizer.
Export Normalizer.

(** ** The outside world and the program state *)

Module World.

(** What the script reads of a response: [status_code], the [Retry-After]
    header when the server sent one, [text], and what [json()] decodes
    ([None] when the body is not JSON). *)
Record response : Type := mkResponse {
  status_code : Z;
  retry_after : option string;
  text : string;
  json_body : option value
}.

(** The arguments of one [requests.get] call. *)
Record request : Type := mkRequest {
  req_url : string;
  req_headers : list (string * string);
  req_params : option (list (string * Z));
  req_timeout : Z
}.

(** A call to requests either returns a response or raises a
    [RequestException] (connection error, timeout, ...). *)
Inductive reply : Type :=
| Responds (r : response)
| Fails (kind : string).

(** The oracle: the answer to the [n]-th GET, to the [n]-th token POST
    (both counted from 0), and whether the [n]-th file opened for writing
    can be written. *)
Record world : Type := mkWorld {
  http_get : nat -> request -> reply;
  http_post : nat -> string -> list (string * string) -> reply;
  file_write_ok : nat -> string -> bool
}.

Inductive event : Type :=
| EGet (req : request)
| EPost (url : string) (data : list (string * string))
| ESleep (secs : Z)
| ESetEnv (key val : string)
| EWrite (path content : string)
| EWriteFailed (path : string).

(** [headers] is the one dict object that [main] builds and
    [make_api_request] updates in place; [environ] is [os.environ];
    [trace] lists the interactions so far, oldest first. *)
Record state : Type := mkState {
  headers : list (string * string);
  environ : list (string * string);
  n_get : nat;
  n_post : nat;
  n_open : nat;
  trace : list event
}.

(** Module-level configuration, read from the environment at import time
    ([os.environ.get] gives [None] for an unset variable). *)
Record config : Type := mkConfig {
  ACCESS_TOKEN : option string;
  REFRESH_TOKEN : option string;
  CLIENT_ID : option string;
  CLIENT_SECRET : option string
}.

Definition OUTPUT_FILE : string := "strava_activities_last_2_years.csv".
Definition SUMMARY_FILE : string := "strava_summary_by_sport.csv".
Definition PER_PAGE : Z := 200.

(** Truth value of a configuration variable, and the string it holds. *)
Definition is_set (o : option string) : bool :=
  match o with
  | Some s => negb (String.eqb s "")
  | None => false
  end.

Definition str_or_empty (o : option string) : string :=
  match o with
  | Some s => s
  | None => ""
  end.

(** [d[k] = v] on a dict with string keys. *)
Fixpoint dict_set {V : Type} (d : list (string * V)) (k : string) (v : V)
  : list (string * V) :=
  match d with
  | [] => [(k, v)]
  | (k', v') :: d' =>
      if String.eqb k' k then (k, v) :: d' else (k', v') :: dict_set d' k v
  end.

(** *** State-and-exception monad *)

Definition M (A : Type) : Type := state -> result A * state.

Definition ret {A} (a : A) : M A := fun st => (Ok a, st).
Definition raise {A} (e : exn) : M A := fun st => (Raise e, st).
Definition lift {A} (r : result A) : M A := fun st => (r, st).

Definition bind {A B} (m : M A) (k : A -> M B) : M B :=
  fun st =>
    match m st with
    | (Ok a, st') => k a st'
    | (Raise e, st') => (Raise e, st')
    end.

(** [try: m  except <classes accepted by handles> as e: handler e]. *)
Definition try_except {A} (m : M A) (handles : exn -> bool)
  (handler : exn -> M A) : M A :=
  fun st =>
    match m st with
    | (Ok a, st') => (Ok a, st')
    | (Raise e, st') => if handles e then handler e st' else (Raise e, st')
    end.

Definition log (ev : event) (st : state) : state :=
  mkState (headers st) (environ st) (n_get st) (n_post st) (n_open st)
          (trace st ++ [ev]).

End World.
Export World.

Notation "'do' x <- m ; k" := (bind m (fun x => k))
  (at level 10, x name, m at level 100, k at level 200).
Notation "'do_' m ; k" := (bind m (fun _ => k))
  (at level 10, m at level 100, k at level 200).

(** ** The script *)

(** Python builtins whose definition lies outside the repository: [int] on
    a string ([None] when it raises [ValueError]) and [str] on the objects
    whose text the embedding cannot spell out (floats, lists, dicts). *)
Class Builtins : Type := {
  int_of_str : string -> option Z;
  str_of : value -> string
}.

(** The pandas calls of [main], each of which may raise: building the
    frame, [fillna], the text [to_csv(path, index=False)] writes, the
    [groupby("sport_type").agg(...).rename(...).reset_index()] chain, and
    the closing report that formats every summary row. *)
Class Pandas : Type := {
  frame : Type;
  pd_DataFrame : list row -> result frame;
  pd_fillna : frame -> string -> result frame;
  pd_csv : frame -> result string;
  pd_summary : frame -> result frame;
  pd_report : frame -> frame -> result unit
}.

Module Strava.
Section Script.

Context {builtins : Builtins}.

(** [str(v)], and [{v}] inside an f-string. *)
Definition py_str (v : value) : string :=
  match v with
  | VStr s => s
  | VInt z => NilZero.string_of_int (Z.to_int z)
  | VNone => "None"
  | VBool true => "True"
  | VBool false => "False"
  | _ => str_of v
  end.

Definition nl : string := String (ascii_of_nat 10) EmptyString.

(** Longest sleep CPython accepts: the nanosecond count must fit 64 bits. *)
Definition SLEEP_MAX : Z := 9223372036.

Definition time_sleep (secs : Z) : M unit :=
  fun st =>
    if secs <? 0 then (Raise (ValueError "sleep length must be non-negative"), st)
    else if SLEEP_MAX <? secs then (Raise OverflowError, st)
    else (Ok tt, log (ESleep secs) st).

Definition requests_get (w : world) (url : string)
  (params : option (list (string * Z))) : M response :=
  fun st =>
    let req := mkRequest url (headers st) params 30 in
    let st' := mkState (headers st) (environ st) (S (n_get st)) (n_post st)
                       (n_open st) (trace st ++ [EGet req]) in
    match http_get w (n_get st) req with
    | Responds r => (Ok r, st')
    | Fails kind => (Raise (RequestException kind), st')
    end.

Definition requests_post (w : world) (url : string)
  (data : list (string * string)) : M response :=
  fun st =>
    let st' := mkState (headers st) (environ st) (n_get st) (S (n_post st))
                       (n_open st) (trace st ++ [EPost url data]) in
    match http_post w (n_post st) url data with
    | Responds r => (Ok r, st')
    | Fails kind => (Raise (RequestException kind), st')
    end.

(** [response.json()]. *)
Definition response_json (r : response) : result value :=
  match json_body r with
  | Some v => Ok v
  | None => Raise JSONDecodeError
  end.

Definition has_nul (s : string) : bool :=
  existsb (fun c => Nat.eqb (nat_of_ascii c) 0) (list_ascii_of_string s).

(** [os.environ[key] = v]: only strings without a NUL are accepted. *)
Definition environ_set (key : string) (v : value) : M unit :=
  match v with
  | VStr s =>
      if has_nul s then raise (ValueError "embedded null byte")
      else fun st =>
        (Ok tt, mkState (headers st) (dict_set (environ st) key s) (n_get st)
                        (n_post st) (n_open st) (trace st ++ [ESetEnv key s]))
  | _ => raise TypeError
  end.

(** [with open(path, "w") as f: f.write(content)].  [EWriteFailed] records
    an attempt that did not leave the complete file. *)
Definition write_file (w : world) (path content : string) : M unit :=
  fun st =>
    let opened := mkState (headers st) (environ st) (n_get st) (n_post st)
                          (S (n_open st)) in
    if file_write_ok w (n_open st) path
    then (Ok tt, opened (trace st ++ [EWrite path content]))
    else (Raise OSError, opened (trace st ++ [EWriteFailed path])).

Definition TOKEN_URL : string := "https://www.strava.com/oauth/token".

(** The form that [requests.post] sends (lines 31-36). *)
Definition token_form (cfg : config) : list (string * string) :=
  [ ("client_id", str_or_empty (CLIENT_ID cfg));
    ("client_secret", str_or_empty (CLIENT_SECRET cfg));
    ("refresh_token", str_or_empty (REFRESH_TOKEN cfg));
    ("grant_type", "refresh_token") ].

(** The f-string of lines 50-55. *)
Definition env_content (cfg : config) (access_token refresh_token expires_at : value)
  : string :=
  ("STRAVA_CLIENT_ID=" ++ str_or_empty (CLIENT_ID cfg) ++ nl ++
   "STRAVA_CLIENT_SECRET=" ++ str_or_empty (CLIENT_SECRET cfg) ++ nl ++
   "STRAVA_ACCESS_TOKEN=" ++ py_str access_token ++ nl ++
   "STRAVA_REFRESH_TOKEN=" ++ py_str refresh_token ++ nl ++
   "STRAVA_TOKEN_EXPIRES_AT=" ++ py_str expires_at ++ nl)%string.

(** Lines 22-60. *)
Definition refresh_access_token (w : world) (cfg : config) : M value :=
  if negb (is_set (REFRESH_TOKEN cfg) && is_set (CLIENT_ID cfg)
           && is_set (CLIENT_SECRET cfg))
  then raise (ValueError
    "Missing refresh token, client ID, or client secret for token refresh")
  else
    do response <- requests_post w TOKEN_URL (token_form cfg);
    if negb (status_code response =? 200)
    then raise (RefreshFailed (status_code response) (text response))
    else
      do data <- lift (response_json response);
      (* Update environment variables *)
      do access_token <- lift (getitem data "access_token");
      do_ environ_set "STRAVA_ACCESS_TOKEN" access_token;
      do refresh_token <- lift (getitem data "refresh_token");
      do_ environ_set "STRAVA_REFRESH_TOKEN" refresh_token;
      do expires_at <- lift (getitem data "expires_at");
      do_ environ_set "STRAVA_TOKEN_EXPIRES_AT" (VStr (py_str expires_at));
      (* Update .env file *)
      do_ write_file w ".env"
            (env_content cfg access_token refresh_token expires_at);
      ret access_token.

(** [int(response.headers.get('Retry-After', 60))]. *)
Definition int_retry_after (r : response) : result Z :=
  match retry_after r with
  | None => Ok 60
  | Some s =>
      match int_of_str s with
      | Some z => Ok z
      | None => Raise (ValueError "invalid literal for int() with base 10")
      end
  end.

(** [response.raise_for_status()]. *)
Definition raise_for_status (r : response) : result unit :=
  if (400 <=? status_code r) && (status_code r <? 600)
  then Raise (HTTPError (status_code r))
  else Ok tt.

(** [headers["Authorization"] = v] on the shared dict. *)
Definition set_authorization (v : string) : M unit :=
  fun st =>
    (Ok tt, mkState (dict_set (headers st) "Authorization" v) (environ st)
                    (n_get st) (n_post st) (n_open st) (trace st)).

(** How one pass through the body of the [for] loop ends. *)
Inductive flow : Type :=
| NextAttempt                 (* [continue], or the end of the body *)
| Return (r : response).

(** Lines 68-97: the body of the [try] once [requests.get] has returned
    [response]. *)
Definition after_response (w : world) (cfg : config) (max_retries attempt : Z)
  (response : response) : M flow :=
  let after_auth : M flow :=
    if status_code response =? 200 then ret (Return response)
    else
      (* For other errors, wait and retry *)
      if attempt <? max_retries - 1 then
        do_ time_sleep (2 ^ attempt);
        ret NextAttempt
      else
        (* Final attempt failed *)
        do_ lift (raise_for_status response);
        ret NextAttempt
  in
  (* Handle rate limiting *)
  if status_code response =? 429 then
    do retry_after <- lift (int_retry_after response);
    do_ time_sleep retry_after;
    ret NextAttempt
  else
    (* Handle token expiration *)
    if status_code response =? 401 then
      if attempt =? 0 then  (* Only try to refresh once *)
        try_except
          (do new_token <- refresh_access_token w cfg;
           do_ set_authorization ("Bearer " ++ py_str new_token);
           ret NextAttempt)
          (fun _ => true)
          (fun e => raise e)
      else after_auth
    else after_auth.

(** Lines 66-97: the body of the [try]. *)
Definition try_body (w : world) (cfg : config) (url : string)
  (params : option (list (string * Z))) (max_retries attempt : Z) : M flow :=
  do response <- requests_get w url params;
  after_response w cfg max_retries attempt response.

(** Lines 99-104: the handler of [except RequestException as e]. *)
Definition on_request_exception (max_retries attempt : Z) (e : exn) : M flow :=
  if attempt =? max_retries - 1
  then raise (ApiRequestFailed max_retries e)
  else
    do_ time_sleep (2 ^ attempt);
    ret NextAttempt.

(** Lines 65-104: one pass through the body of the [for] loop. *)
Definition attempt_once (w : world) (cfg : config) (url : string)
  (params : option (list (string * Z))) (max_retries attempt : Z) : M flow :=
  try_except (try_body w cfg url params max_retries attempt)
    is_RequestException
    (on_request_exception max_retries attempt).

(** [range(n)]. *)
Definition range (n : Z) : list Z := map Z.of_nat (seq 0 (Z.to_nat n)).

(** The [for] loop over the remaining values of [attempt], and the [raise]
    that follows it. *)
Fixpoint for_attempts (w : world) (cfg : config) (url : string)
  (params : option (list (string * Z))) (max_retries : Z) (attempts : list Z)
  : M response :=
  match attempts with
  | [] => raise UnexpectedError
  | attempt :: rest =>
      do fl <- attempt_once w cfg url params max_retries attempt;
      match fl with
      | Return r => ret r
      | NextAttempt => for_attempts w cfg url params max_retries rest
      end
  end.

(** Lines 62-106. *)
Definition make_api_request (w : world) (cfg : config) (url : string)
  (params : option (list (string * Z))) (max_retries : Z) : M response :=
  for_attempts w cfg url params max_retries (range max_retries).

Definition ACTIVITIES_URL : string :=
  "https://www.strava.com/api/v3/athlete/activities".

(** Lines 127-131: the [params] dict. *)
Definition page_params (after page : Z) : list (string * Z) :=
  [("after", after); ("page", page); ("per_page", PER_PAGE)].

(** Lines 127-161: one pass through the body of [while True].  [None] is
    the [break]; otherwise the grown accumulator. *)
Definition page_step (w : world) (cfg : config) (after page : Z)
  (all_activities : list row) : M (option (list row)) :=
  let params := page_params after page in
  do response <- make_api_request w cfg ACTIVITIES_URL (Some params) 3;
  do data <- lift (response_json response);
  if negb (truthy data) then ret None
  else
    do items <- lift (iter data);
    do all_activities' <- lift (append_rows items all_activities);
    do_ time_sleep 1;  (* Avoid hitting rate limits *)
    ret (Some all_activities').

(** Lines 126-161: the [while True] loop, cut off after [fuel] passes
    ([None] when the loop is still running then). *)
Fixpoint fetch_pages (w : world) (cfg : config) (after : Z) (fuel : nat)
  (page : Z) (all_activities : list row) (st : state)
  : option (result (list row) * state) :=
  match fuel with
  | O => None
  | S fuel' =>
      match page_step w cfg after page all_activities st with
      | (Raise e, st') => Some (Raise e, st')
      | (Ok None, st') => Some (Ok all_activities, st')
      | (Ok (Some all_activities'), st') =>
          fetch_pages w cfg after fuel' (page + 1) all_activities' st'
      end
  end.

(** Lines 112-114: the [headers] dict [main] builds. *)
Definition initial_headers (cfg : config) (st : state) : state :=
  mkState
    [("Authorization", ("Bearer " ++ str_or_empty (ACCESS_TOKEN cfg))%string)]
    (environ st) (n_get st) (n_post st) (n_open st) (trace st).

Context {pandas : Pandas}.

(** [df.to_csv(path, index=False)]. *)
Definition to_csv (w : world) (df : frame) (path : string) : M unit :=
  match pd_csv df with
  | Ok content => write_file w path content
  | Raise e => fun st => (Raise e, log (EWriteFailed path) st)
  end.

(** Lines 163-184: what follows the loop inside the [try]. *)
Definition export (w : world) (all_activities : list row) : M (option Z) :=
  match all_activities with
  | [] => ret None
  | _ =>
      do df <- lift (pd_DataFrame all_activities);
      do df <- lift (pd_fillna df "");
      do_ to_csv w df OUTPUT_FILE;
      (* Summary by sport type *)
      do summary_df <- lift (pd_summary df);
      do_ to_csv w summary_df SUMMARY_FILE;
      (* Print summary *)
      do_ lift (pd_report df summary_df);
      ret None
  end.

(** Lines 108-188.  [after] is the timestamp line 117 computes from the
    clock.  The result is the value [main] returns ([None] or [1]), or the
    exception it lets escape; [None] when the loop outlives [fuel]. *)
Definition main (w : world) (cfg : config) (after : Z) (fuel : nat)
  (st : state) : option (result (option Z) * state) :=
  if negb (is_set (ACCESS_TOKEN cfg))
  then Some (Raise (ValueError "Missing STRAVA_ACCESS_TOKEN environment variable"), st)
  else
    match fetch_pages w cfg after fuel 1 [] (initial_headers cfg st) with
    | None => None
    | Some (Raise e, st') => Some (Ok (Some 1), st')
    | Some (Ok all_activities, st') =>
        match export w all_activities st' with
        | (Raise e, st'') => Some (Ok (Some 1), st'')
        | (Ok r, st'') => Some (Ok r, st'')
        end
    end.

End Script.
End Strava.
Export Strava.

(** ** Observations on a trace *)

Definition sleeps (tr : list event) : list Z :=
  flat_map (fun ev => match ev with ESleep s => [s] | _ => [] end) tr.

Definition gets (tr : list event) : list request :=
  flat_map (fun ev => match ev with EGet r => [r] | _ => [] end) tr.

Definition posts (tr : list event) : list (string * list (string * string)) :=
  flat_map (fun ev => match ev with EPost u d => [(u, d)] | _ => [] end) tr.

(** Paths the run tried to write, completely or not. *)
Definition written_paths (tr : list event) : list string :=
  flat_map (fun ev => match ev with
                      | EWrite p _ | EWriteFailed p => [p]
                      | _ => []
                      end) tr.

(** The [page] parameter of a request. *)
Definition page_of (r : request) : option Z :=
  match req_params r with
  | Some ps =>
      match find (fun kv => String.eqb (fst kv) "page") ps with
      | Some kv => Some (snd kv)
      | None => None
      end
  | None => None
  end.

(** The [Authorization] header of a request. *)
Definition authorization_of (r : request) : option string :=
  match find (fun kv => String.eqb (fst kv) "Authorization") (req_headers r) with
  | Some kv => Some (snd kv)
  | None => None
  end.

(** Writes to the two output files among the writes of a trace. *)
Definition is_output (p : string) : bool :=
  String.eqb p OUTPUT_FILE || String.eqb p SUMMARY_FILE.

Definition output_writes (tr : list event) : list string :=
  filter is_output (written_paths tr).

(** The state right after the GET that [requests_get] issues from [st]. *)
Definition sent (st : state) (url : string)
  (params : option (list (string * Z))) : state :=
  mkState (headers st) (environ st) (S (n_get st)) (n_post st) (n_open st)
          (trace st ++ [EGet (mkRequest url (headers st) params 30)]).

(** A reply that the executor treats as a transient failure whatever the
    attempt: a network fault, or an error status other than 429 and 401. *)
Definition transient (rp : reply) : bool :=
  match rp with
  | Fails _ => true
  | Responds r =>
      (400 <=? status_code r) && (status_code r <? 600)
      && negb (status_code r =? 429) && negb (status_code r =? 401)
  end.

(** The exception a transient failure stands for. *)
Definition failure_of (rp : reply) : exn :=
  match rp with
  | Fails kind => RequestException kind
  | Responds r => HTTPError (status_code r)
  end.

(** A relation between the state before and the state after holds of
    every run of [m]. *)
Definition keeps (R : state -> state -> Prop) {A : Type} (m : M A) : Prop :=
  forall st, R st (snd (m st)).

Definition same_gets (st st' : state) : Prop := n_get st' = n_get st.

Definition same_outputs (st st' : state) : Prop :=
  output_writes (trace st') = output_writes (trace st).

(** A token exchange that goes through: the configuration is complete,
    the endpoint answers 200 with a JSON object holding the two tokens as
    strings and [expires_at], and the three values can be stored in the
    process environment (no NUL character). *)
Definition exchange_succeeds {builtins : Builtins} (w : world) (cfg : config)
  (st : state) (access refresh : string) (expires_at : value) : Prop :=
  is_set (REFRESH_TOKEN cfg) = true /\
  is_set (CLIENT_ID cfg) = true /\
  is_set (CLIENT_SECRET cfg) = true /\
  exists r data,
    http_post w (n_post st) TOKEN_URL (token_form cfg) = Responds r /\
    status_code r = 200 /\
    json_body r = Some data /\
    getitem data "access_token" = Ok (VStr access) /\
    getitem data "refresh_token" = Ok (VStr refresh) /\
    getitem data "expires_at" = Ok expires_at /\
    has_nul access = false /\
    has_nul refresh = false /\
    has_nul (py_str expires_at) = false.

(** The trace only grows. *)
Definition grows (st st' : state) : Prop :=
  exists tr, trace st' = trace st ++ tr.

(** The optional keys of a raw record, each with the row field it feeds
    and the value that field takes when the key is absent: the default
    handed to [get], after the conversion applied to it (lines 144-156). *)
Definition OPTIONAL_FIELDS : list (string * string * value) :=
  [ ("distance", "distance_km", VFloat 0);
    ("moving_time", "moving_time_min", VFloat 0);
    ("elapsed_time", "elapsed_time_min", VFloat 0);
    ("average_speed", "average_speed_kmph", VFloat 0);
    ("max_speed", "max_speed_kmph", VFloat 0);
    ("total_elevation_gain", "total_elevation_gain_m", VStr "");
    ("average_heartrate", "average_heartrate", VStr "");
    ("max_heartrate", "max_heartrate", VStr "");
    ("calories", "calories", VStr "");
    ("trainer", "trainer", VInt 0);
    ("commute", "commute", VInt 0) ].

(** [d.get(k, default)] on the association list. *)
Definition dget (d : list (string * value)) (k : string) (default : value)
  : value :=
  match dict_get d k with
  | Some v => v
  | None => default
  end.

(** ** Sample inputs *)

Module Samples.

(** [int] restricted to plain decimal numerals; [str] is not exercised by
    the samples. *)
Definition decimal_builtins : Builtins := {|
  int_of_str s := option_map Z.of_int (NilZero.int_of_string s);
  str_of _ := "<object>"
|}.

(** A stand-in for pandas that accepts every table: the frame is the list
    of rows, the summary keeps one row per table. *)
Definition plain_pandas : Pandas := {|
  frame := list row;
  pd_DataFrame rows := Ok rows;
  pd_fillna df _ := Ok df;
  pd_csv df := Ok (NilZero.string_of_int (Z.to_int (Z.of_nat (List.length df))));
  pd_summary df := Ok (firstn 1 df);
  pd_report _ _ := Ok tt
|}.

Definition status_only (code : Z) : response := mkResponse code None "" None.

Definition rate_limited (wait : option string) : response :=
  mkResponse 429 wait "" None.

Definition page_of_records (records : list value) : response :=
  mkResponse 200 None "" (Some (VList records)).

Definition token_response : response :=
  mkResponse 200 None ""
    (Some (VDict [ ("access_token", VStr "new-access");
                   ("refresh_token", VStr "new-refresh");
                   ("expires_at", VInt 1900000000) ])).

(** A world that plays back fixed replies, then refuses connections. *)
Definition scripted (get_replies post_replies : list reply) (disk_ok : bool)
  : world :=
  mkWorld (fun n _ => nth n get_replies (Fails "ConnectionError"))
          (fun n _ _ => nth n post_replies (Fails "ConnectionError"))
          (fun _ _ => disk_ok).

Definition cfg0 : config :=
  mkConfig (Some "old-access") (Some "old-refresh") (Some "client")
           (Some "secret").

Definition st0 : state :=
  mkState [("Authorization", "Bearer old-access")] [] 0 0 0 [].

Definition run_activity : value :=
  VDict [ ("id", VInt 7); ("name", VStr "Morning Run"); ("type", VStr "Run");
          ("start_date_local", VStr "2024-05-01T07:00:00Z");
          ("distance", VFloat (102345 # 10)); ("moving_time", VInt 3605) ].

(** A record with only the keys the normaliser reads unconditionally. *)
Definition bare_activity : value :=
  VDict [ ("id", VInt 8); ("name", VStr "Yoga"); ("type", VStr "Yoga");
          ("start_date_local", VStr "2024-05-02T18:00:00Z") ].

Definition ride_activity : value :=
  VDict [ ("id", VInt 9); ("name", VStr "Commute"); ("type", VStr "Ride");
          ("sport_type", VStr "EBikeRide");
          ("start_date_local", VStr "2024-05-03T08:00:00Z");
          ("distance", VInt 12000); ("commute", VBool true) ].

(** A record without its identifier. *)
Definition broken_activity : value :=
  VDict [ ("name", VStr "Nameless"); ("type", VStr "Run") ].

(** Two server errors, then an empty page. *)
Definition w_backoff : world :=
  scripted [ Responds (status_only 500); Responds (status_only 500);
             Responds (page_of_records []) ] [] true.

(** One rate-limit answer, two server errors, then an empty page. *)
Definition w_rate_limited (wait : option string) : world :=
  scripted [ Responds (rate_limited wait); Responds (status_only 500);
             Responds (status_only 500); Responds (page_of_records []) ]
           [] true.

(** Nothing but rate-limit answers. *)
Definition w_always_429 : world :=
  mkWorld (fun _ _ => Responds (rate_limited (Some "5")))
          (fun _ _ _ => Fails "ConnectionError") (fun _ _ => true).

(** The token is refused twice, before and after a successful refresh,
    and accepted the third time. *)
Definition w_auth : world :=
  scripted [ Responds (status_only 401); Responds (status_only 401);
             Responds (page_of_records []) ]
           [ Responds token_response ] true.

(** The state in which the refresh of [w_auth] leaves the first pass. *)
Definition st_refreshed : state :=
  Eval vm_compute in
    snd (refresh_access_token (builtins := decimal_builtins) w_auth cfg0
           (sent st0 ACTIVITIES_URL None)).

(** The token endpoint answers, and the disk takes the write or not. *)
Definition w_refresh (disk_ok : bool) : world :=
  scripted [] [ Responds token_response ] disk_ok.

(** A server with two pages of activities. *)
Definition two_pages (p : Z) : list value :=
  if p =? 1 then [run_activity]
  else if p =? 2 then [ride_activity; bare_activity]
  else [].

Definition w_pages : world :=
  mkWorld (fun _ req =>
             match page_of req with
             | Some p => Responds (page_of_records (two_pages p))
             | None => Responds (status_only 400)
             end)
          (fun _ _ _ => Fails "ConnectionError") (fun _ _ => true).

(** A server whose first page holds a malformed record. *)
Definition w_broken : world :=
  scripted [ Responds (page_of_records [run_activity; broken_activity]) ]
           [] true.

End Samples.

(** ** Further observations *)

(** The keys [normalize] reads with [activity[key]], in the order it reads
    them, and the optional keys whose value goes through arithmetic. *)
Definition MANDATORY_KEYS : list string :=
  ["id"; "name"; "type"; "start_date_local"].



(** The raw keys copied into the row without conversion, each with the row
    key it is stored under. *)
Definition VERBATIM_FIELDS : list (string * string) :=
  [ ("id", "id"); ("name", "name"); ("sport_type", "sport_type");
    ("start_date_local", "start_date");
    ("total_elevation_gain", "total_elevation_gain_m");
    ("average_heartrate", "average_heartrate");
    ("max_heartrate", "max_heartrate");
    ("calories", "calories"); ("trainer", "trainer"); ("commute", "commute") ].

(** A reply that is answered with a back-off on every pass but the last:
    a network fault, or any status other than 200, 429 and 401. *)
Definition retryable (rp : reply) : bool :=
  match rp with
  | Fails _ => true
  | Responds r =>
      negb (status_code r =? 200) && negb (status_code r =? 429)
      && negb (status_code r =? 401)
  end.

(** The state after one request and one back-off sleep for each of the
    given values of [attempt]. *)
Fixpoint after_backoffs (url : string) (params : option (list (string * Z)))
  (attempts : list Z) (st : state) : state :=
  match attempts with
  | [] => st
  | attempt :: rest =>
      after_backoffs url params rest
        (log (ESleep (2 ^ attempt)) (sent st url params))
  end.

Definition same_posts (st st' : state) : Prop := n_post st' = n_post st.

Definition same_headers (st st' : state) : Prop := headers st' = headers st.

(** The trace grows by steps that are neither requests nor sleeps nor
    writes to anything but [.env], and the headers stay as they are. *)
Definition quiet (st st' : state) : Prop :=
  headers st' = headers st /\ n_get st' = n_get st /\
  exists tr, trace st' = trace st ++ tr /\
             gets tr = [] /\ sleeps tr = [] /\
             Forall (fun p => p = ".env") (written_paths tr).

Module MoreSamples.
Import Samples.



(** The token endpoint refuses the refresh token. *)
Definition w_refresh_refused : world :=
  scripted [ Responds (status_only 401); Responds (page_of_records []) ]
           [ Responds (mkResponse 400 None "invalid refresh token" None) ] true.

(** The token endpoint cannot be reached; the data server then accepts the
    old token. *)
Definition w_refresh_unreachable : world :=
  scripted [ Responds (status_only 401); Responds (page_of_records []) ]
           [ Fails "ConnectionError" ] true.

(** A token answer without [refresh_token]. *)
Definition w_partial_token : world :=
  scripted []
    [ Responds (mkResponse 200 None ""
                  (Some (VDict [ ("access_token", VStr "new-access") ]))) ]
    true.

(** 401, then a page once the token is refreshed. *)
Definition w_refresh_then_page : world :=
  scripted [ Responds (status_only 401); Responds (page_of_records [run_activity]) ]
           [ Responds token_response ] true.

(** Three failures of different kinds, then an empty page. *)
Definition w_three_failures : world :=
  scripted [ Responds (status_only 503); Fails "Timeout";
             Responds (status_only 302); Responds (page_of_records []) ] [] true.

(** A server that answers 204 to everything. *)
Definition w_no_content : world :=
  mkWorld (fun _ _ => Responds (status_only 204))
          (fun _ _ _ => Fails "ConnectionError") (fun _ _ => true).

(** An empty collection. *)
Definition w_no_activities : world :=
  scripted [ Responds (page_of_records []) ] [] true.

(** A record with a type but a textual distance, and one with a
    [sport_type] but no [type]. *)
Definition textual_distance : value :=
  VDict [ ("id", VInt 10); ("name", VStr "Swim"); ("type", VStr "Swim");
          ("start_date_local", VStr "2024-05-04T08:00:00Z");
          ("distance", VStr "1500") ].

Definition typeless_activity : value :=
  VDict [ ("id", VInt 11); ("name", VStr "Hike"); ("sport_type", VStr "Hike");
          ("start_date_local", VStr "2024-05-05T08:00:00Z") ].

(** A record whose heart rate is the JSON null. *)
Definition null_heartrate : value :=
  VDict [ ("id", VInt 12); ("name", VStr "Row"); ("type", VStr "Rowing");
          ("start_date_local", VStr "2024-05-06T08:00:00Z");
          ("average_heartrate", VNone); ("trainer", VBool true) ].

(** A pandas stand-in whose summary step fails. *)
Definition failing_summary : Pandas := {|
  frame := list row;
  pd_DataFrame rows := Ok rows;
  pd_fillna df _ := Ok df;
  pd_csv df := Ok "csv";
  pd_summary df := Raise (KeyError "sport_type");
  pd_report _ _ := Ok tt
|}.

End MoreSamples.

(** ** The playlist script ([spotify/create_playlist.py]) *)

Module Spotify.

(** The spotipy client, as an oracle.  [sp_search n q] is what the [n]-th
    call [sp.search(q=q, type='track', limit=1)] returns, [None] when it
    raises; [sp_playlist_add_items n playlist_id items] tells whether the
    [n]-th call [sp.playlist_add_items(...)] returns ([true]) or raises.
    Both functions of the script catch [Exception] and only print it, so an
    exception is not told apart from another. *)
Record client : Type := mkClient {
  sp_search : nat -> string -> option value;
  sp_playlist_add_items : nat -> value -> list value -> bool
}.

(** The calls made so far, oldest first; [added] records whether the call
    returned. *)
Inductive call : Type :=
| Search (q : string)
| AddItems (playlist_id : value) (items : list value) (added : bool).

(** [obj[key]] with a string key inside a [try]. *)
Definition item (obj : value) (key : string) : option value :=
  match getitem obj key with
  | Ok v => Some v
  | Raise _ => None
  end.

(** [obj[0]] inside a [try]: the first element of a list or the first
    character of a string; an empty sequence, a JSON object (its keys are
    strings) or any other object raises. *)
Definition subscript0 (obj : value) : option value :=
  match obj with
  | VList (x :: _) => Some x
  | VStr (String c _) => Some (VStr (String c EmptyString))
  | _ => None
  end.

Definition obind {A B} (o : option A) (k : A -> option B) : option B :=
  match o with
  | Some a => k a
  | None => None
  end.

(** Lines 136-149, the body of the [try] after the search has returned:
    [None] when a lookup raises, [Some None] when there is no track,
    [Some (Some uri)] when the URI is appended. *)
Definition first_track (result : value) : option (option value) :=
  obind (item result "tracks") (fun tracks_obj =>
  obind (item tracks_obj "items") (fun tracks =>
  if truthy tracks then
    obind (subscript0 tracks) (fun track =>
    obind (item track "uri") (fun track_uri =>
    obind (item track "name") (fun track_name =>
    obind (item track "artists") (fun artists =>
    obind (subscript0 artists) (fun artist =>
    obind (item artist "name") (fun artist_name =>
    Some (Some track_uri)))))))
  else Some None)).

(** Lines 130-153: the loop, threading [track_uris], [not_found] and the
    calls made. *)
Fixpoint search_loop (sp : client) (songs : list string)
  (track_uris : list value) (not_found : list string) (calls : list call)
  : list value * list string * list call :=
  match songs with
  | [] => (track_uris, not_found, calls)
  | song :: songs' =>
      let calls' := calls ++ [Search song] in
      match obind (sp_search sp (List.length calls) song) first_track with
      | Some (Some track_uri) =>
          search_loop sp songs' (track_uris ++ [track_uri]) not_found calls'
      | Some None | None =>
          search_loop sp songs' track_uris (not_found ++ [song]) calls'
      end
  end.

(** Lines 125-163. *)
Definition search_tracks (sp : client) (songs : list string) (verbose : bool)
  (calls : list call) : list value * list call :=
  let '(track_uris, not_found, calls') := search_loop sp songs [] [] calls in
  (track_uris, calls').

(** What the summary of lines 155-161 reports as not found. *)
Definition reported_not_found (sp : client) (songs : list string)
  (calls : list call) : list string :=
  snd (fst (search_loop sp songs [] [] calls)).

(** [range(0, stop, step)] for a positive [step]. *)
Definition range_step (stop step : nat) : list nat :=
  map (fun k => k * step)%nat (seq 0 ((stop + step - 1) / step)).

(** [l[i:j]] for [0 <= i <= j]. *)
Definition slice {A} (l : list A) (i j : nat) : list A :=
  firstn (j - i) (skipn i l).

Definition batch_size : nat := 100.

(** Lines 202-207: the loop over the batch starts; [false] as soon as a
    call raises. *)
Fixpoint add_batches (sp : client) (playlist_id : value)
  (track_uris : list value) (starts : list nat) (calls : list call)
  : bool * list call :=
  match starts with
  | [] => (true, calls)
  | i :: starts' =>
      let batch := slice track_uris i (i + batch_size) in
      let ok := sp_playlist_add_items sp (List.length calls) playlist_id batch in
      let calls' := calls ++ [AddItems playlist_id batch ok] in
      if ok then add_batches sp playlist_id track_uris starts' calls'
      else (false, calls')
  end.

(** Lines 190-214. *)
Definition add_tracks_to_playlist (sp : client) (playlist_id : value)
  (track_uris : list value) (verbose : bool) (calls : list call)
  : bool * list call :=
  match track_uris with
  | [] => (false, calls)
  | _ =>
      add_batches sp playlist_id track_uris
        (range_step (List.length track_uris) batch_size) calls
  end.

(** The batches a list of calls added or tried to add. *)
Definition batches_of (calls : list call) : list (list value) :=
  flat_map (fun c => match c with
                     | AddItems _ items _ => [items]
                     | Search _ => []
                     end) calls.

Definition added_of (calls : list call) : list (list value) :=
  flat_map (fun c => match c with
                     | AddItems _ items true => [items]
                     | _ => []
                     end) calls.

(** Sample clients. *)
Definition hit (uri : string) : value :=
  VDict [ ("tracks",
           VDict [ ("items",
                    VList [ VDict [ ("uri", VStr uri); ("name", VStr "track");
                                    ("artists",
                                     VList [ VDict [ ("name", VStr "artist") ] ]) ] ]) ]) ].

Definition no_hit : value :=
  VDict [ ("tracks", VDict [ ("items", VList []) ]) ].

(** A hit whose track lists no artist. *)
Definition hit_without_artist : value :=
  VDict [ ("tracks",
           VDict [ ("items",
                    VList [ VDict [ ("uri", VStr "spotify:track:x");
                                    ("name", VStr "track");
                                    ("artists", VList []) ] ]) ]) ].

Definition sample_client : client :=
  mkClient (fun n q => match n with
                       | 0%nat => Some (hit "spotify:track:a")
                       | 1%nat => None
                       | 2%nat => Some no_hit
                       | 3%nat => Some hit_without_artist
                       | _ => Some (hit "spotify:track:b")
                       end)
           (fun n _ _ => Nat.ltb n 2).

Definition uris (n : nat) : list value :=
  map (fun k => VInt (Z.of_nat k)) (seq 0 n).

End Spotify.

(** * Properties *)

Unset Implicit Arguments.

(** ** The record normaliser *)

Section NormalizerFacts.

Lemma get_dict (d : list (string * value)) (k : string) (default : value) :
  get (VDict d) k default = Ok (dget d k default).
Proof. unfold get, dget. now destruct (dict_get d k). Qed.

Lemma getitem_Ok (obj : value) (k : string) (v : value) :
  getitem obj k = Ok v -> exists d, obj = VDict d /\ dict_get d k = Some v.
Proof.
  destruct obj; simpl; try discriminate.
  destruct (dict_get d k) eqn:E; intros H; inversion H; subst; eauto.
Qed.

Ltac step_bind H :=
  match type of H with
  | rbind ?x _ = Ok _ =>
      let E := fresh "E" in
      destruct x eqn:E; cbn [rbind] in H; [ | discriminate H ]
  end.

(** The shape of every row the normaliser produces. *)
Lemma normalize_inv (activity : value) (r : row) :
  normalize activity = Ok r ->
  exists d id name type start dk mt et av mx,
    activity = VDict d /\
    dict_get d "id" = Some id /\
    dict_get d "name" = Some name /\
    dict_get d "type" = Some type /\
    dict_get d "start_date_local" = Some start /\
    distance_km (dget d "distance" (VInt 0)) = Ok dk /\
    minutes (dget d "moving_time" (VInt 0)) = Ok mt /\
    minutes (dget d "elapsed_time" (VInt 0)) = Ok et /\
    kmph (dget d "average_speed" (VInt 0)) = Ok av /\
    kmph (dget d "max_speed" (VInt 0)) = Ok mx /\
    r = [ ("id", id); ("name", name);
          ("sport_type", dget d "sport_type" type);
          ("start_date", start);
          ("distance_km", dk);
          ("moving_time_min", mt);
          ("elapsed_time_min", et);
          ("average_speed_kmph", av);
          ("max_speed_kmph", mx);
          ("total_elevation_gain_m", dget d "total_elevation_gain" (VStr ""));
          ("average_heartrate", dget d "average_heartrate" (VStr ""));
          ("max_heartrate", dget d "max_heartrate" (VStr ""));
          ("calories", dget d "calories" (VStr ""));
          ("trainer", dget d "trainer" (VInt 0));
          ("commute", dget d "commute" (VInt 0)) ].
Proof.
  intros H. unfold normalize in H.
  repeat (step_bind H;
          match goal with
          | E : getitem _ _ = Ok _ |- _ =>
              let Hd := fresh "Hd" in
              apply getitem_Ok in E as (? & Hd & ?); inversion Hd; subst
          | E : get (VDict _) _ _ = Ok _ |- _ =>
              rewrite get_dict in E; inversion E; subst; clear E
          | _ => idtac
          end).
  inversion H; subst r; clear H.
  do 10 eexists. repeat (split; [ eassumption || reflexivity | ]).
  reflexivity.
Qed.

Lemma has_key_dget (d : list (string * value)) (k : string) (default : value) :
  has_key (VDict d) k = false -> dget d k default = default.
Proof.
  unfold has_key, dget. destruct (dict_get d k); [ discriminate | reflexivity ].
Qed.


End NormalizerFacts.

(** C8.  Every row the normaliser produces carries exactly the fifteen keys
    of [ROW_FIELDS], in that order, whichever optional keys the raw record
    had. *)
Theorem normalize_fixed_fields (activity : value) (r : row) :
  normalize activity = Ok r -> map fst r = ROW_FIELDS.
Proof.
  intros H. apply normalize_inv in H.
  destruct H as (d & id & name & type & start & dk & mt & et & av & mx & H).
  destruct H as (_ & _ & _ & _ & _ & _ & _ & _ & _ & _ & ->).
  reflexivity.
Qed.

Lemma normalize_fixed_fields_witness :
  exists r, normalize Samples.bare_activity = Ok r /\ map fst r = ROW_FIELDS.
Proof.
  eexists. split.
  - vm_compute. reflexivity.
  - apply (normalize_fixed_fields Samples.bare_activity). vm_compute. reflexivity.
Defined.

(** The row of a record that has none of the optional keys. *)
Example bare_activity_row :
  normalize Samples.bare_activity
  = Ok [ ("id", VInt 8); ("name", VStr "Yoga"); ("sport_type", VStr "Yoga");
         ("start_date", VStr "2024-05-02T18:00:00Z");
         ("distance_km", VFloat 0); ("moving_time_min", VFloat 0);
         ("elapsed_time_min", VFloat 0); ("average_speed_kmph", VFloat 0);
         ("max_speed_kmph", VFloat 0); ("total_elevation_gain_m", VStr "");
         ("average_heartrate", VStr ""); ("max_heartrate", VStr "");
         ("calories", VStr ""); ("trainer", VInt 0); ("commute", VInt 0) ].
Proof. vm_compute. reflexivity. Qed.

(** C3, as stated, fails: a record without [distance] is accepted and its
    [distance_km] is the number zero, not the empty string. *)
Lemma absent_numeric_field_is_zero :
  ~ (forall activity r raw_key row_key absent_value,
        In (raw_key, row_key, absent_value) OPTIONAL_FIELDS ->
        has_key activity raw_key = false ->
        normalize activity = Ok r ->
        dict_get r row_key = Some (VStr "")).
Proof.
  intros claim.
  destruct (normalize Samples.bare_activity) as [r | e] eqn:E;
    [ | vm_compute in E; discriminate E ].
  assert (K := claim Samples.bare_activity r "distance" "distance_km" (VFloat 0)
                 (or_introl eq_refl) eq_refl E).
  vm_compute in E. inversion E; subst r. vm_compute in K. discriminate K.
Qed.

(** C3, amended.  When an optional key is absent from an accepted record,
    the row field it feeds is present and holds the value listed in
    [OPTIONAL_FIELDS]: the empty string for elevation gain, the two heart
    rates and calories; the float zero for distance, the two durations and
    the two speeds; the integer zero for [trainer] and [commute]. *)
Theorem absent_optional_field_default
  (activity : value) (r : row) (raw_key row_key : string) (absent_value : value) :
  In (raw_key, row_key, absent_value) OPTIONAL_FIELDS ->
  has_key activity raw_key = false ->
  normalize activity = Ok r ->
  dict_get r row_key = Some absent_value.
Proof.
  intros Hin Habs H. apply normalize_inv in H.
  destruct H as (d & id & name & type & start & dk & mt & et & av & mx & H).
  destruct H as (-> & _ & _ & _ & _ & Hdk & Hmt & Het & Hav & Hmx & ->).
  unfold OPTIONAL_FIELDS in Hin. cbn [In] in Hin.
  repeat (destruct Hin as [Hin | Hin];
          [ inversion Hin; subst; clear Hin;
            rewrite ?(has_key_dget _ _ _ Habs) in *;
            match goal with
            | Hc : _ (VInt 0) = Ok ?x |- _ =>
                vm_compute in Hc; inversion Hc; subst x; reflexivity
            | _ => reflexivity
            end
          | ]).
  contradiction.
Qed.

Lemma absent_optional_field_default_witness :
  exists r,
    normalize Samples.bare_activity = Ok r /\
    dict_get r "calories" = Some (VStr "") /\
    dict_get r "distance_km" = Some (VFloat 0) /\
    dict_get r "trainer" = Some (VInt 0).
Proof.
  eexists. split; [ vm_compute; reflexivity | ].
  split; [ | split ].
  - apply (absent_optional_field_default Samples.bare_activity _ "calories");
      [ vm_compute; tauto | reflexivity | vm_compute; reflexivity ].
  - apply (absent_optional_field_default Samples.bare_activity _ "distance");
      [ vm_compute; tauto | reflexivity | vm_compute; reflexivity ].
  - apply (absent_optional_field_default Samples.bare_activity _ "trainer");
      [ vm_compute; tauto | reflexivity | vm_compute; reflexivity ].
Defined.

Example distance_km_twice :
  distance_km (VInt 1000000) = Ok (VFloat 1000) /\
  distance_km (VFloat 1000) = Ok (VFloat 1).
Proof. split; vm_compute; reflexivity. Qed.




(** ** The request executor *)

Section ExecutorSteps.

Context {builtins : Builtins}.
Variables (w : world) (cfg : config) (url : string)
          (params : option (list (string * Z))) (max_retries : Z).

Lemma time_sleep_ok (secs : Z) (st : state) :
  0 <= secs <= SLEEP_MAX -> time_sleep secs st = (Ok tt, log (ESleep secs) st).
Proof.
  intros [Hlo Hhi]. unfold time_sleep.
  destruct (Z.ltb_spec secs 0); [ lia | ].
  destruct (Z.ltb_spec SLEEP_MAX secs); [ lia | reflexivity ].
Qed.

Lemma requests_get_responds (st : state) (r : response) :
  http_get w (n_get st) (mkRequest url (headers st) params 30) = Responds r ->
  requests_get w url params st = (Ok r, sent st url params).
Proof. intros H. unfold requests_get. now rewrite H. Qed.

Lemma requests_get_fails (st : state) (kind : string) :
  http_get w (n_get st) (mkRequest url (headers st) params 30) = Fails kind ->
  requests_get w url params st = (Raise (RequestException kind), sent st url params).
Proof. intros H. unfold requests_get. now rewrite H. Qed.

Lemma requests_get_state (st : state) :
  snd (requests_get w url params st) = sent st url params.
Proof.
  unfold requests_get.
  now destruct (http_get w (n_get st) (mkRequest url (headers st) params 30)).
Qed.

(** A 429 with a usable wait: sleep, then the next pass. *)
Lemma after_response_429 (attempt : Z) (r : response) (d : Z) (st : state) :
  status_code r = 429 -> int_retry_after r = Ok d -> 0 <= d <= SLEEP_MAX ->
  after_response w cfg max_retries attempt r st
  = (Ok NextAttempt, log (ESleep d) st).
Proof.
  intros Hs Hd Hr. unfold after_response, bind, lift, ret.
  rewrite Hs, Hd. cbn [Z.eqb Pos.eqb]. now rewrite time_sleep_ok.
Qed.

Lemma after_response_200 (attempt : Z) (r : response) (st : state) :
  status_code r = 200 ->
  after_response w cfg max_retries attempt r st = (Ok (Return r), st).
Proof.
  intros Hs. unfold after_response, ret. rewrite Hs. reflexivity.
Qed.

(** Any other status, 401 included once [attempt] is past 0, goes through
    the generic path: back off while passes remain ... *)
Lemma after_response_backoff (attempt : Z) (r : response) (st : state) :
  status_code r <> 429 -> status_code r <> 200 ->
  (status_code r = 401 -> attempt <> 0) ->
  attempt < max_retries - 1 -> 0 <= 2 ^ attempt <= SLEEP_MAX ->
  after_response w cfg max_retries attempt r st
  = (Ok NextAttempt, log (ESleep (2 ^ attempt)) st).
Proof.
  intros H429 H200 H401 Hlt Hsl. unfold after_response.
  destruct (Z.eqb_spec (status_code r) 429); [ contradiction | ].
  destruct (Z.eqb_spec (status_code r) 200); [ contradiction | ].
  destruct (Z.ltb_spec attempt (max_retries - 1)); [ | lia ].
  assert (E : (do_ time_sleep (2 ^ attempt); ret NextAttempt) st
              = (Ok NextAttempt, log (ESleep (2 ^ attempt)) st))
    by (unfold bind, ret; now rewrite time_sleep_ok).
  destruct (Z.eqb_spec (status_code r) 401); [ | exact E ].
  destruct (Z.eqb_spec attempt 0); [ now elim H401 | exact E ].
Qed.

(** ... and on the last pass [raise_for_status] turns an error status into
    an [HTTPError]. *)
Lemma after_response_last (attempt : Z) (r : response) (st : state) :
  status_code r <> 429 -> status_code r <> 200 ->
  (status_code r = 401 -> attempt <> 0) ->
  ~ attempt < max_retries - 1 -> 400 <= status_code r < 600 ->
  after_response w cfg max_retries attempt r st
  = (Raise (HTTPError (status_code r)), st).
Proof.
  intros H429 H200 H401 Hlt Hst. unfold after_response.
  destruct (Z.eqb_spec (status_code r) 429); [ contradiction | ].
  destruct (Z.eqb_spec (status_code r) 200); [ contradiction | ].
  destruct (Z.ltb_spec attempt (max_retries - 1)); [ contradiction | ].
  assert (E : (do_ lift (raise_for_status r); ret NextAttempt) st
              = (Raise (HTTPError (status_code r)), st)).
  { unfold bind, lift, raise_for_status.
    destruct (Z.leb_spec 400 (status_code r)); [ | lia ].
    destruct (Z.ltb_spec (status_code r) 600); [ | lia ].
    reflexivity. }
  destruct (Z.eqb_spec (status_code r) 401); [ | exact E ].
  destruct (Z.eqb_spec attempt 0); [ now elim H401 | exact E ].
Qed.

(** A 401 on the first pass with a successful refresh. *)
Lemma after_response_refresh (r : response) (tok : value) (st st1 : state) :
  status_code r = 401 ->
  refresh_access_token w cfg st = (Ok tok, st1) ->
  after_response w cfg max_retries 0 r st
  = (Ok NextAttempt,
     snd (set_authorization ("Bearer " ++ py_str tok) st1)).
Proof.
  intros Hs Hr. unfold after_response, try_except, bind, ret.
  rewrite Hs. cbn [Z.eqb Pos.eqb]. rewrite Hr. reflexivity.
Qed.

Lemma attempt_once_responds (attempt : Z) (st : state) (r : response) :
  http_get w (n_get st) (mkRequest url (headers st) params 30) = Responds r ->
  attempt_once w cfg url params max_retries attempt st
  = try_except (after_response w cfg max_retries attempt r)
      is_RequestException (on_request_exception max_retries attempt)
      (sent st url params).
Proof.
  intros H. unfold attempt_once, try_body, try_except, bind.
  rewrite (requests_get_responds st r H). reflexivity.
Qed.

Lemma attempt_once_fails (attempt : Z) (st : state) (kind : string) :
  http_get w (n_get st) (mkRequest url (headers st) params 30) = Fails kind ->
  attempt_once w cfg url params max_retries attempt st
  = on_request_exception max_retries attempt (RequestException kind)
      (sent st url params).
Proof.
  intros H. unfold attempt_once, try_body, try_except, bind.
  rewrite (requests_get_fails st kind H). reflexivity.
Qed.

(** A transient failure while passes remain: back off [2 ^ attempt]. *)
Lemma attempt_once_transient_retry (attempt : Z) (st : state) (rp : reply) :
  http_get w (n_get st) (mkRequest url (headers st) params 30) = rp ->
  transient rp = true ->
  attempt < max_retries - 1 -> 0 <= 2 ^ attempt <= SLEEP_MAX ->
  attempt_once w cfg url params max_retries attempt st
  = (Ok NextAttempt, log (ESleep (2 ^ attempt)) (sent st url params)).
Proof.
  intros Hget Htr Hlt Hsl. destruct rp as [r | kind]; cbn [transient] in Htr.
  - apply andb_prop in Htr as [Htr H401]. apply andb_prop in Htr as [Htr H429].
    apply andb_prop in Htr as [Hlo Hhi].
    apply negb_true_iff, Z.eqb_neq in H401, H429.
    apply Z.leb_le in Hlo. apply Z.ltb_lt in Hhi.
    rewrite (attempt_once_responds attempt st r Hget). unfold try_except.
    rewrite after_response_backoff; try assumption; try reflexivity; try lia.
  - rewrite (attempt_once_fails attempt st kind Hget).
    unfold on_request_exception, bind, ret.
    destruct (Z.eqb_spec attempt (max_retries - 1)); [ lia | ].
    now rewrite time_sleep_ok.
Qed.

(** A transient failure on the last pass: the wrapped failure is raised. *)
Lemma attempt_once_transient_last (st : state) (rp : reply) :
  http_get w (n_get st) (mkRequest url (headers st) params 30) = rp ->
  transient rp = true ->
  attempt_once w cfg url params max_retries (max_retries - 1) st
  = (Raise (ApiRequestFailed max_retries (failure_of rp)), sent st url params).
Proof.
  intros Hget Htr. destruct rp as [r | kind]; cbn [transient] in Htr.
  - apply andb_prop in Htr as [Htr H401]. apply andb_prop in Htr as [Htr H429].
    apply andb_prop in Htr as [Hlo Hhi].
    apply negb_true_iff, Z.eqb_neq in H401, H429.
    apply Z.leb_le in Hlo. apply Z.ltb_lt in Hhi.
    rewrite (attempt_once_responds _ st r Hget). unfold try_except.
    rewrite after_response_last; try assumption; try lia.
    cbn [is_RequestException]. unfold on_request_exception, raise.
    now rewrite Z.eqb_refl.
  - rewrite (attempt_once_fails _ st kind Hget).
    unfold on_request_exception, raise. now rewrite Z.eqb_refl.
Qed.

Lemma attempt_once_200 (attempt : Z) (st : state) (r : response) :
  http_get w (n_get st) (mkRequest url (headers st) params 30) = Responds r ->
  status_code r = 200 ->
  attempt_once w cfg url params max_retries attempt st
  = (Ok (Return r), sent st url params).
Proof.
  intros Hget Hs. rewrite (attempt_once_responds attempt st r Hget).
  unfold try_except. now rewrite after_response_200.
Qed.

Lemma attempt_once_429 (attempt : Z) (st : state) (r : response) (d : Z) :
  http_get w (n_get st) (mkRequest url (headers st) params 30) = Responds r ->
  status_code r = 429 -> int_retry_after r = Ok d -> 0 <= d <= SLEEP_MAX ->
  attempt_once w cfg url params max_retries attempt st
  = (Ok NextAttempt, log (ESleep d) (sent st url params)).
Proof.
  intros Hget Hs Hd Hr. rewrite (attempt_once_responds attempt st r Hget).
  unfold try_except. now rewrite (after_response_429 attempt r d).
Qed.

Lemma for_attempts_next (attempt : Z) (rest : list Z) (st st1 : state) :
  attempt_once w cfg url params max_retries attempt st = (Ok NextAttempt, st1) ->
  for_attempts w cfg url params max_retries (attempt :: rest) st
  = for_attempts w cfg url params max_retries rest st1.
Proof. intros H. cbn [for_attempts]. unfold bind. now rewrite H. Qed.

Lemma for_attempts_return (attempt : Z) (rest : list Z) (st st1 : state)
  (r : response) :
  attempt_once w cfg url params max_retries attempt st = (Ok (Return r), st1) ->
  for_attempts w cfg url params max_retries (attempt :: rest) st = (Ok r, st1).
Proof. intros H. cbn [for_attempts]. unfold bind. now rewrite H. Qed.

Lemma for_attempts_raise (attempt : Z) (rest : list Z) (st st1 : state)
  (e : exn) :
  attempt_once w cfg url params max_retries attempt st = (Raise e, st1) ->
  for_attempts w cfg url params max_retries (attempt :: rest) st = (Raise e, st1).
Proof. intros H. cbn [for_attempts]. unfold bind. now rewrite H. Qed.

Lemma range_pos (n : Z) :
  0 < n -> range n = 0 :: map Z.of_nat (seq 1 (Z.to_nat n - 1)).
Proof.
  intros H. unfold range.
  replace (Z.to_nat n) with (S (Z.to_nat n - 1)) at 1 by lia.
  reflexivity.
Qed.

End ExecutorSteps.

(** C5.  With [max_retries = 3], two transient failures (network faults
    or error statuses other than 429 and 401, such as 500) are each followed
    by a sleep of [2 ^ attempt] seconds, 1 then 2.  If the third reply is a
    200 its response is returned; if it is transient as well, the call
    raises the "API request failed after 3 attempts" exception that wraps
    the last failure.  Either way exactly three requests are issued. *)
Theorem backoff_then_third_attempt {builtins : Builtins}
  (w : world) (cfg : config) (url : string)
  (params : option (list (string * Z))) (st : state) (rp1 rp2 rp3 : reply) :
  let req := mkRequest url (headers st) params 30 in
  let st' := mkState (headers st) (environ st) (3 + n_get st) (n_post st)
               (n_open st)
               (trace st ++ [EGet req; ESleep 1; EGet req; ESleep 2; EGet req]) in
  http_get w (n_get st) req = rp1 ->
  http_get w (1 + n_get st) req = rp2 ->
  http_get w (2 + n_get st) req = rp3 ->
  transient rp1 = true ->
  transient rp2 = true ->
  (forall r3, rp3 = Responds r3 -> status_code r3 = 200 ->
     make_api_request w cfg url params 3 st = (Ok r3, st')) /\
  (transient rp3 = true ->
     make_api_request w cfg url params 3 st
     = (Raise (ApiRequestFailed 3 (failure_of rp3)), st')).
Proof.
  intros req st' H1 H2 H3 T1 T2.
  assert (S1 : attempt_once w cfg url params 3 0 st
               = (Ok NextAttempt, log (ESleep 1) (sent st url params))).
  { apply (attempt_once_transient_retry w cfg url params 3 0 st rp1 H1 T1);
      [ lia | unfold SLEEP_MAX; cbn; lia ]. }
  set (st1 := log (ESleep 1) (sent st url params)) in *.
  assert (S2 : attempt_once w cfg url params 3 1 st1
               = (Ok NextAttempt, log (ESleep 2) (sent st1 url params))).
  { apply (attempt_once_transient_retry w cfg url params 3 1 st1 rp2 H2 T2);
      [ lia | unfold SLEEP_MAX; cbn; lia ]. }
  set (st2 := log (ESleep 2) (sent st1 url params)) in *.
  assert (Est : sent st2 url params = st').
  { unfold st', st2, st1, sent, log. cbn [headers environ n_get n_post n_open trace].
    f_equal. repeat rewrite <- app_assoc. reflexivity. }
  unfold make_api_request. change (range 3) with [0; 1; 2].
  rewrite (for_attempts_next w cfg url params 3 0 _ st st1 S1).
  rewrite (for_attempts_next w cfg url params 3 1 _ st1 st2 S2).
  rewrite <- Est. split.
  - intros r3 -> Hs. apply for_attempts_return.
    exact (attempt_once_200 w cfg url params 3 2 st2 r3 H3 Hs).
  - intros T3. apply for_attempts_raise.
    exact (attempt_once_transient_last w cfg url params 3 st2 rp3 H3 T3).
Qed.

Lemma backoff_then_third_attempt_witness :
  let req := mkRequest ACTIVITIES_URL (headers Samples.st0) None 30 in
  make_api_request (builtins := Samples.decimal_builtins)
    Samples.w_backoff Samples.cfg0 ACTIVITIES_URL None 3 Samples.st0
  = (Ok (Samples.page_of_records []),
     mkState (headers Samples.st0) [] 3 0 0
       [EGet req; ESleep 1; EGet req; ESleep 2; EGet req]).
Proof.
  intros req.
  apply (proj1 (backoff_then_third_attempt (builtins := Samples.decimal_builtins)
                  Samples.w_backoff Samples.cfg0 ACTIVITIES_URL None Samples.st0
                  _ _ _ eq_refl eq_refl eq_refl eq_refl eq_refl));
    reflexivity.
Defined.

(** A 429 without the header, two server errors, then a good page: the
    call waits 60 seconds, backs off 2 seconds (not 1: the pass counter is
    already at 1) and gives up at the third request. *)
Example rate_limited_run :
  let out := make_api_request (builtins := Samples.decimal_builtins)
               (Samples.w_rate_limited None) Samples.cfg0 ACTIVITIES_URL None 3
               Samples.st0 in
  fst out = Raise (ApiRequestFailed 3 (HTTPError 500)) /\
  sleeps (trace (snd out)) = [60; 2] /\
  List.length (gets (trace (snd out))) = 3%nat.
Proof. vm_compute. repeat split. Qed.

(** C1, as stated, fails: the wait uses up a pass of the loop.  After a 429
    the call does not go on like a call with the full budget: here the 429
    is followed by two server errors and a good page, and the call gives up
    after three requests, although a call started after the wait would
    have reached the page. *)
Lemma rate_limit_wait_reduces_budget :
  ~ (exists B : Builtins,
      forall (w : world) (cfg : config) (url : string)
        (params : option (list (string * Z))) (max_retries : Z) (st : state)
        (r : response) (d : Z),
        0 < max_retries ->
        http_get w (n_get st) (mkRequest url (headers st) params 30) = Responds r ->
        status_code r = 429 ->
        int_retry_after r = Ok d -> 0 <= d <= SLEEP_MAX ->
        fst (make_api_request w cfg url params max_retries st)
        = fst (make_api_request w cfg url params max_retries
                 (log (ESleep d) (sent st url params)))).
Proof.
  intros [B claim].
  assert (K := claim (Samples.w_rate_limited None) Samples.cfg0
                 ACTIVITIES_URL None 3 Samples.st0
                 (Samples.rate_limited None) 60
                 eq_refl eq_refl eq_refl eq_refl).
  assert (R : 0 <= 60 <= SLEEP_MAX) by (unfold SLEEP_MAX; lia).
  specialize (K R). vm_compute in K. discriminate K.
Qed.

(** C1, amended.  A 429 met on any pass makes the executor sleep for the
    Retry-After value (60 when the header is absent) and then move on to
    the next value of [attempt]: the wait skips the exponential back-off
    but uses up one of the [max_retries] passes.  A 429 on the last pass
    therefore ends the call with the "Unexpected error in API request"
    exception, and a call whose first reply is a 429 continues with the
    passes 1 .. max_retries - 1 only. *)
Theorem rate_limit_wait_uses_a_pass {builtins : Builtins}
  (w : world) (cfg : config) (url : string)
  (params : option (list (string * Z))) (max_retries : Z)
  (attempt : Z) (rest : list Z) (st : state) (r : response) (d : Z) :
  http_get w (n_get st) (mkRequest url (headers st) params 30) = Responds r ->
  status_code r = 429 ->
  int_retry_after r = Ok d -> 0 <= d <= SLEEP_MAX ->
  let st' := log (ESleep d) (sent st url params) in
  (retry_after r = None -> d = 60) /\
  for_attempts w cfg url params max_retries (attempt :: rest) st
  = for_attempts w cfg url params max_retries rest st' /\
  for_attempts w cfg url params max_retries [attempt] st
  = (Raise UnexpectedError, st') /\
  (0 < max_retries ->
   make_api_request w cfg url params max_retries st
   = for_attempts w cfg url params max_retries
       (map Z.of_nat (seq 1 (Z.to_nat max_retries - 1))) st').
Proof.
  intros Hget Hs Hd Hr st'.
  pose proof (attempt_once_429 w cfg url params max_retries) as step.
  split; [ | split; [ | split ] ].
  - intros Hnone. unfold int_retry_after in Hd. rewrite Hnone in Hd.
    now inversion Hd.
  - apply for_attempts_next. now apply step with (r := r).
  - rewrite (for_attempts_next w cfg url params max_retries attempt [] st st').
    + reflexivity.
    + now apply step with (r := r).
  - intros Hpos. unfold make_api_request. rewrite (range_pos _ Hpos).
    apply for_attempts_next. now apply step with (r := r).
Qed.

Lemma rate_limit_wait_uses_a_pass_witness :
  let req := mkRequest ACTIVITIES_URL (headers Samples.st0) None 30 in
  make_api_request (builtins := Samples.decimal_builtins)
    (Samples.w_rate_limited (Some "5")) Samples.cfg0 ACTIVITIES_URL None 3
    Samples.st0
  = for_attempts (builtins := Samples.decimal_builtins)
      (Samples.w_rate_limited (Some "5")) Samples.cfg0 ACTIVITIES_URL None 3
      [1; 2]
      (mkState (headers Samples.st0) [] 1 0 0 [EGet req; ESleep 5]).
Proof.
  intros req.
  apply (rate_limit_wait_uses_a_pass (builtins := Samples.decimal_builtins)
           (Samples.w_rate_limited (Some "5")) Samples.cfg0 ACTIVITIES_URL None 3
           0 [] Samples.st0 (Samples.rate_limited (Some "5")) 5).
  - reflexivity.
  - reflexivity.
  - reflexivity.
  - unfold SLEEP_MAX. lia.
  - lia.
Defined.


(** ** Relations that every step of a run maintains *)

Section Invariant.

Context {builtins : Builtins}.
Variable R : state -> state -> Prop.
Hypothesis R_refl : forall st, R st st.
Hypothesis R_trans : forall a b c, R a b -> R b c -> R a c.

Lemma keeps_ret {A} (a : A) : keeps R (ret a).
Proof. intros st. apply R_refl. Qed.

Lemma keeps_raise {A} (e : exn) : keeps R (@raise A e).
Proof. intros st. apply R_refl. Qed.

Lemma keeps_lift {A} (r : result A) : keeps R (lift r).
Proof. intros st. apply R_refl. Qed.

Lemma keeps_bind {A B} (m : M A) (k : A -> M B) :
  keeps R m -> (forall a, keeps R (k a)) -> keeps R (bind m k).
Proof.
  intros Hm Hk st. unfold bind. specialize (Hm st).
  destruct (m st) as [[a | e] st1]; cbn [snd] in *.
  - eapply R_trans; [ exact Hm | apply Hk ].
  - exact Hm.
Qed.

Lemma keeps_try_except {A} (m : M A) (handles : exn -> bool)
  (handler : exn -> M A) :
  keeps R m -> (forall e, keeps R (handler e)) ->
  keeps R (try_except m handles handler).
Proof.
  intros Hm Hh st. unfold try_except. specialize (Hm st).
  destruct (m st) as [[a | e] st1]; cbn [snd] in *.
  - exact Hm.
  - destruct (handles e); [ | exact Hm ].
    eapply R_trans; [ exact Hm | apply Hh ].
Qed.

Ltac keeps_step :=
  first
    [ apply keeps_ret | apply keeps_raise | apply keeps_lift
    | assumption
    | match goal with H : forall _, keeps R _ |- _ => apply H end
    | match goal with H : forall _ _, keeps R _ |- _ => apply H end
    | apply keeps_bind; [ | intros ? ]
    | apply keeps_try_except; [ | intros ? ]
    | match goal with
      | |- keeps R (if ?c then _ else _) => destruct c
      | |- keeps R (match ?x with _ => _ end) => destruct x
      end ].

Variables (w : world) (cfg : config).

Hypothesis sleep_keeps : forall secs, keeps R (time_sleep secs).
Hypothesis post_keeps : forall url data, keeps R (requests_post w url data).
Hypothesis environ_keeps : forall key v, keeps R (environ_set key v).
Hypothesis dotenv_keeps : forall content, keeps R (write_file w ".env" content).
Hypothesis authorization_keeps : forall v, keeps R (set_authorization v).

Lemma refresh_keeps : keeps R (refresh_access_token w cfg).
Proof. unfold refresh_access_token. repeat keeps_step. Qed.

Lemma after_response_keeps (max_retries attempt : Z) (r : response) :
  keeps R (after_response w cfg max_retries attempt r).
Proof.
  pose proof refresh_keeps. unfold after_response. repeat keeps_step.
Qed.

Lemma on_request_exception_keeps (max_retries attempt : Z) (e : exn) :
  keeps R (on_request_exception max_retries attempt e).
Proof. unfold on_request_exception. repeat keeps_step. Qed.

(** Whatever one pass does after its request is related to the state in
    which the request left it. *)
Lemma attempt_once_after_get (url : string)
  (params : option (list (string * Z))) (max_retries attempt : Z) (st : state) :
  R (sent st url params)
    (snd (attempt_once w cfg url params max_retries attempt st)).
Proof.
  unfold attempt_once, try_except, try_body, bind.
  pose proof (requests_get_state w url params st) as Hst.
  destruct (requests_get w url params st) as [[r | e] st1]; cbn [snd] in Hst;
    subst st1.
  - pose proof (after_response_keeps max_retries attempt r (sent st url params)) as H.
    destruct (after_response w cfg max_retries attempt r (sent st url params))
      as [[fl | e] st2]; cbn [snd] in *; [ exact H | ].
    destruct (is_RequestException e); [ | exact H ].
    eapply R_trans; [ exact H | apply on_request_exception_keeps ].
  - destruct (is_RequestException e); [ | apply R_refl ].
    apply on_request_exception_keeps.
Qed.

Hypothesis get_keeps : forall url params, keeps R (requests_get w url params).

Lemma attempt_once_keeps (url : string) (params : option (list (string * Z)))
  (max_retries attempt : Z) :
  keeps R (attempt_once w cfg url params max_retries attempt).
Proof.
  unfold attempt_once, try_body.
  apply keeps_try_except.
  - apply keeps_bind; [ apply get_keeps | intros r; apply after_response_keeps ].
  - intros e. apply on_request_exception_keeps.
Qed.

Lemma for_attempts_keeps (url : string) (params : option (list (string * Z)))
  (max_retries : Z) (attempts : list Z) :
  keeps R (for_attempts w cfg url params max_retries attempts).
Proof.
  induction attempts as [ | attempt rest IH]; cbn [for_attempts].
  - apply keeps_raise.
  - apply keeps_bind; [ apply attempt_once_keeps | ].
    intros [ | r]; [ exact IH | apply keeps_ret ].
Qed.

Lemma make_api_request_keeps (url : string)
  (params : option (list (string * Z))) (max_retries : Z) :
  keeps R (make_api_request w cfg url params max_retries).
Proof. apply for_attempts_keeps. Qed.

Lemma page_step_keeps (after page : Z) (all_activities : list row) :
  keeps R (page_step w cfg after page all_activities).
Proof.
  unfold page_step. cbv zeta.
  apply keeps_bind; [ apply make_api_request_keeps | intros response ].
  repeat keeps_step.
Qed.

Lemma fetch_pages_keeps (after : Z) (fuel : nat) :
  forall (page : Z) (all_activities : list row) (st : state) res st',
    fetch_pages w cfg after fuel page all_activities st = Some (res, st') ->
    R st st'.
Proof.
  induction fuel as [ | fuel IH]; intros page acc st res st' H; cbn [fetch_pages] in H.
  - discriminate H.
  - pose proof (page_step_keeps after page acc st) as Hstep.
    destruct (page_step w cfg after page acc st) as [[[acc' | ] | e] st1];
      cbn [snd] in Hstep.
    + eapply R_trans; [ exact Hstep | eapply IH; exact H ].
    + inversion H; subst. exact Hstep.
    + inversion H; subst. exact Hstep.
Qed.

End Invariant.

Section RunFacts.

Context {builtins : Builtins}.
Variables (w : world) (cfg : config).

Lemma same_gets_refl (st : state) : same_gets st st.
Proof. reflexivity. Qed.

Lemma same_gets_trans (a b c : state) :
  same_gets a b -> same_gets b c -> same_gets a c.
Proof. unfold same_gets. congruence. Qed.

Lemma same_outputs_refl (st : state) : same_outputs st st.
Proof. reflexivity. Qed.

Lemma same_outputs_trans (a b c : state) :
  same_outputs a b -> same_outputs b c -> same_outputs a c.
Proof. unfold same_outputs. congruence. Qed.

Lemma grows_refl (st : state) : grows st st.
Proof. exists []. now rewrite app_nil_r. Qed.

Lemma grows_trans (a b c : state) : grows a b -> grows b c -> grows a c.
Proof.
  intros [t1 H1] [t2 H2]. exists (t1 ++ t2). now rewrite H2, H1, app_assoc.
Qed.

Lemma output_writes_app (t1 t2 : list event) :
  output_writes (t1 ++ t2) = output_writes t1 ++ output_writes t2.
Proof.
  unfold output_writes, written_paths.
  now rewrite flat_map_app, filter_app.
Qed.

(** The primitives, relation by relation. *)
Ltac prim_keeps :=
  intros st;
  unfold time_sleep, requests_post, requests_get, environ_set, write_file,
         set_authorization, raise, log, same_gets, same_outputs, grows;
  repeat match goal with
         | |- context [if ?c then _ else _] => destruct c
         | |- context [match ?x with _ => _ end] => destruct x
         end;
  cbn [snd trace n_get];
  try reflexivity;
  try (rewrite output_writes_app; cbn; now rewrite app_nil_r);
  try (eexists; reflexivity);
  try (exists []; now rewrite app_nil_r).

Lemma sleep_same_gets secs : keeps same_gets (time_sleep secs).
Proof. prim_keeps. Qed.
Lemma post_same_gets url data : keeps same_gets (requests_post w url data).
Proof. prim_keeps. Qed.
Lemma environ_same_gets key v : keeps same_gets (environ_set key v).
Proof. prim_keeps. Qed.
Lemma write_same_gets path content : keeps same_gets (write_file w path content).
Proof. prim_keeps. Qed.
Lemma authorization_same_gets v : keeps same_gets (set_authorization v).
Proof. prim_keeps. Qed.

Lemma sleep_same_outputs secs : keeps same_outputs (time_sleep secs).
Proof. prim_keeps. Qed.
Lemma post_same_outputs url data : keeps same_outputs (requests_post w url data).
Proof. prim_keeps. Qed.
Lemma get_same_outputs url params : keeps same_outputs (requests_get w url params).
Proof. prim_keeps. Qed.
Lemma environ_same_outputs key v : keeps same_outputs (environ_set key v).
Proof. prim_keeps. Qed.
Lemma dotenv_same_outputs content :
  keeps same_outputs (write_file w ".env" content).
Proof. prim_keeps. Qed.
Lemma authorization_same_outputs v : keeps same_outputs (set_authorization v).
Proof. prim_keeps. Qed.

Lemma sleep_grows secs : keeps grows (time_sleep secs).
Proof. prim_keeps. Qed.
Lemma post_grows url data : keeps grows (requests_post w url data).
Proof. prim_keeps. Qed.
Lemma get_grows url params : keeps grows (requests_get w url params).
Proof. prim_keeps. Qed.
Lemma environ_grows key v : keeps grows (environ_set key v).
Proof. prim_keeps. Qed.
Lemma write_grows path content : keeps grows (write_file w path content).
Proof. prim_keeps. Qed.
Lemma authorization_grows v : keeps grows (set_authorization v).
Proof. prim_keeps. Qed.

End RunFacts.

Section ExecutorBounds.

Context {builtins : Builtins}.
Variables (w : world) (cfg : config) (url : string)
          (params : option (list (string * Z))) (max_retries : Z).

(** Every pass through the loop body sends exactly one request. *)
Lemma attempt_once_one_get (attempt : Z) (st : state) :
  n_get (snd (attempt_once w cfg url params max_retries attempt st))
  = S (n_get st).
Proof.
  exact (attempt_once_after_get same_gets same_gets_refl same_gets_trans w cfg
           sleep_same_gets (post_same_gets w) environ_same_gets
           (write_same_gets w ".env") authorization_same_gets
           url params max_retries attempt st).
Qed.

Lemma attempt_once_trace (attempt : Z) (st : state) :
  exists tr,
    trace (snd (attempt_once w cfg url params max_retries attempt st))
    = trace st ++ EGet (mkRequest url (headers st) params 30) :: tr.
Proof.
  destruct (attempt_once_after_get grows grows_refl grows_trans w cfg
              sleep_grows (post_grows w) environ_grows
              (write_grows w ".env") authorization_grows
              url params max_retries attempt st) as [tr H].
  exists tr. rewrite H. unfold sent. cbn [trace].
  now rewrite <- app_assoc.
Qed.

Lemma for_attempts_get_bound (attempts : list Z) (st : state) :
  (n_get (snd (for_attempts w cfg url params max_retries attempts st))
   <= n_get st + List.length attempts)%nat.
Proof.
  revert st. induction attempts as [ | attempt rest IH]; intros st;
    cbn [for_attempts List.length].
  - cbn. lia.
  - unfold bind.
    pose proof (attempt_once_one_get attempt st) as H1.
    destruct (attempt_once w cfg url params max_retries attempt st)
      as [[[ | r] | e] st1]; unfold ret; cbn [snd] in *.
    + specialize (IH st1). lia.
    + lia.
    + lia.
Qed.

Lemma range_length (n : Z) : List.length (range n) = Z.to_nat n.
Proof. unfold range. now rewrite length_map, length_seq. Qed.

(** Rate-limit answers on every remaining pass: the loop runs out. *)
Lemma for_attempts_all_429 (attempts : list Z) (st : state) :
  (forall i req, (i < List.length attempts)%nat ->
     exists r d,
       http_get w (n_get st + i) req = Responds r /\
       status_code r = 429 /\
       int_retry_after r = Ok d /\ 0 <= d <= SLEEP_MAX) ->
  fst (for_attempts w cfg url params max_retries attempts st)
  = Raise UnexpectedError /\
  n_get (snd (for_attempts w cfg url params max_retries attempts st))
  = (n_get st + List.length attempts)%nat /\
  List.length (sleeps (trace (snd (for_attempts w cfg url params max_retries
                                     attempts st))))
  = (List.length (sleeps (trace st)) + List.length attempts)%nat.
Proof.
  revert st. induction attempts as [ | attempt rest IH]; intros st H.
  - cbn. repeat split; lia.
  - destruct (H 0%nat (mkRequest url (headers st) params 30))
      as (r & d & Hget & Hs & Hd & Hr); [ cbn; lia | ].
    rewrite Nat.add_0_r in Hget.
    rewrite (for_attempts_next w cfg url params max_retries attempt rest st _
               (attempt_once_429 w cfg url params max_retries attempt st r d
                  Hget Hs Hd Hr)).
    destruct (IH (log (ESleep d) (sent st url params))) as (E1 & E2 & E3).
    + intros i req Hi. cbn [log sent n_get].
      replace (S (n_get st) + i)%nat with (n_get st + S i)%nat by lia.
      apply H. cbn. lia.
    + rewrite E1, E2, E3. cbn [log sent n_get trace List.length].
      unfold sleeps. rewrite !flat_map_app. cbn. rewrite !length_app. cbn.
      repeat split; lia.
Qed.

End ExecutorBounds.

(** C10.  [make_api_request] always ends, with a response or an exception,
    after at most [max_retries] passes through its loop (each pass sends
    exactly one request, so the passes are counted by the requests).  In
    particular, when every reply is a 429 with a usable wait, the loop is
    left after [max_retries] requests and as many sleeps, and the call
    raises the "Unexpected error in API request" exception. *)
Theorem make_api_request_terminates {builtins : Builtins}
  (w : world) (cfg : config) (url : string)
  (params : option (list (string * Z))) (max_retries : Z) (st : state) :
  (exists res st',
     make_api_request w cfg url params max_retries st = (res, st') /\
     (n_get st' <= n_get st + Z.to_nat max_retries)%nat) /\
  ((forall i req, (i < Z.to_nat max_retries)%nat ->
      exists r d,
        http_get w (n_get st + i) req = Responds r /\
        status_code r = 429 /\
        int_retry_after r = Ok d /\ 0 <= d <= SLEEP_MAX) ->
   let out := make_api_request w cfg url params max_retries st in
   fst out = Raise UnexpectedError /\
   n_get (snd out) = (n_get st + Z.to_nat max_retries)%nat /\
   List.length (sleeps (trace (snd out)))
   = (List.length (sleeps (trace st)) + Z.to_nat max_retries)%nat).
Proof.
  split.
  - destruct (make_api_request w cfg url params max_retries st) as [res st'] eqn:E.
    exists res, st'. split; [ reflexivity | ].
    pose proof (for_attempts_get_bound w cfg url params max_retries
                  (range max_retries) st) as H.
    unfold make_api_request in E. rewrite E in H. cbn [snd] in H.
    now rewrite range_length in H.
  - intros H out. unfold out, make_api_request.
    rewrite <- (range_length max_retries).
    apply for_attempts_all_429. now rewrite range_length.
Qed.

Lemma make_api_request_terminates_witness :
  let out := make_api_request (builtins := Samples.decimal_builtins)
               Samples.w_always_429 Samples.cfg0 ACTIVITIES_URL None 3
               Samples.st0 in
  fst out = Raise UnexpectedError /\
  n_get (snd out) = 3%nat /\
  List.length (sleeps (trace (snd out))) = 3%nat.
Proof.
  apply (proj2 (make_api_request_terminates (builtins := Samples.decimal_builtins)
                  Samples.w_always_429 Samples.cfg0 ACTIVITIES_URL None 3
                  Samples.st0)).
  intros i req Hi. exists (Samples.rate_limited (Some "5")), 5.
  repeat split; unfold SLEEP_MAX; lia.
Defined.

(** 401, refresh, 401 again, then a good page: one token exchange, a
    back-off of 2 seconds, three requests, and the page is returned. *)
Example repeated_401_run :
  let out := make_api_request (builtins := Samples.decimal_builtins)
               Samples.w_auth Samples.cfg0 ACTIVITIES_URL None 3 Samples.st0 in
  fst out = Ok (Samples.page_of_records []) /\
  sleeps (trace (snd out)) = [2] /\
  List.length (posts (trace (snd out))) = 1%nat /\
  map (fun r => authorization_of r) (gets (trace (snd out)))
  = [Some "Bearer old-access"; Some "Bearer new-access"; Some "Bearer new-access"].
Proof. vm_compute. repeat split. Qed.

(** C2, as stated, fails: a 401 that comes back after the refresh is not
    terminal.  With the default budget of three passes the executor backs
    off for two seconds and sends a third request; here that request
    succeeds and the call returns its response. *)
Lemma repeated_401_is_retried :
  ~ (exists B : Builtins,
      forall (w : world) (cfg : config) (url : string)
        (params : option (list (string * Z))) (st st1 : state)
        (r1 r2 : response) (tok : value),
        http_get w (n_get st) (mkRequest url (headers st) params 30) = Responds r1 ->
        status_code r1 = 401 ->
        refresh_access_token w cfg (sent st url params) = (Ok tok, st1) ->
        let st2 := snd (set_authorization ("Bearer " ++ py_str tok) st1) in
        http_get w (n_get st2) (mkRequest url (headers st2) params 30) = Responds r2 ->
        status_code r2 = 401 ->
        (exists e, fst (make_api_request w cfg url params 3 st) = Raise e) /\
        n_get (snd (make_api_request w cfg url params 3 st)) = (2 + n_get st)%nat).
Proof.
  intros [B claim].
  destruct (refresh_access_token Samples.w_auth Samples.cfg0
              (sent Samples.st0 ACTIVITIES_URL None)) as [res st1] eqn:E.
  vm_compute in E. inversion E as [[Hres Hst1]]; clear E.
  symmetry in Hst1.
  assert (K := claim Samples.w_auth Samples.cfg0 ACTIVITIES_URL None
                 Samples.st0 st1 (Samples.status_only 401)
                 (Samples.status_only 401) (VStr "new-access")
                 eq_refl eq_refl).
  rewrite Hst1 in K. specialize (K eq_refl eq_refl eq_refl).
  destruct K as [[e K] _]. vm_compute in K. discriminate K.
Qed.

(** C2, amended.  After a 401 on the first pass, a successful refresh and
    a second 401, the executor does not refresh again and treats the 401
    like any failing status.  When that was the last pass
    ([max_retries = 2]) the call raises the "API request failed after 2
    attempts" exception wrapping the 401, and no third request is sent.
    When passes remain ([max_retries > 2], as with the default 3) it
    sleeps [2 ^ 1] seconds and goes on with pass 2, whose first action is
    a third request carrying the refreshed token. *)
Theorem repeated_401_backs_off {builtins : Builtins}
  (w : world) (cfg : config) (url : string)
  (params : option (list (string * Z))) (max_retries : Z) (st st1 : state)
  (r1 r2 : response) (tok : value) :
  http_get w (n_get st) (mkRequest url (headers st) params 30) = Responds r1 ->
  status_code r1 = 401 ->
  refresh_access_token w cfg (sent st url params) = (Ok tok, st1) ->
  let st2 := snd (set_authorization ("Bearer " ++ py_str tok) st1) in
  http_get w (n_get st2) (mkRequest url (headers st2) params 30) = Responds r2 ->
  status_code r2 = 401 ->
  let st3 := sent st2 url params in
  (max_retries = 2 ->
   make_api_request w cfg url params max_retries st
   = (Raise (ApiRequestFailed 2 (HTTPError 401)), st3)) /\
  (2 < max_retries ->
   make_api_request w cfg url params max_retries st
   = for_attempts w cfg url params max_retries
       (2 :: map Z.of_nat (seq 3 (Z.to_nat max_retries - 3)))
       (log (ESleep 2) st3) /\
   exists tr,
     trace (snd (attempt_once w cfg url params max_retries 2 (log (ESleep 2) st3)))
     = trace st3 ++ ESleep 2 :: EGet (mkRequest url (headers st3) params 30) :: tr).
Proof.
  intros H1 Hs1 Href st2 H2 Hs2 st3.
  assert (A0 : attempt_once w cfg url params max_retries 0 st = (Ok NextAttempt, st2)).
  { rewrite (attempt_once_responds w cfg url params max_retries 0 st r1 H1).
    unfold try_except.
    now rewrite (after_response_refresh w cfg max_retries r1 tok _ st1 Hs1 Href). }
  split.
  - intros ->. unfold make_api_request. change (range 2) with [0; 1].
    rewrite (for_attempts_next w cfg url params 2 0 _ st st2 A0).
    apply for_attempts_raise.
    rewrite (attempt_once_responds w cfg url params 2 1 st2 r2 H2).
    unfold try_except.
    rewrite (after_response_last w cfg 2 1 r2);
      [ | rewrite Hs2; lia | rewrite Hs2; lia | lia | lia | rewrite Hs2; lia ].
    rewrite Hs2. cbn [is_RequestException]. reflexivity.
  - intros Hgt. split.
    + unfold make_api_request, range.
      remember (Z.to_nat max_retries - 3)%nat as k eqn:Ek.
      replace (Z.to_nat max_retries) with (S (S (S k))) by lia.
      cbn [seq map]. change (Z.of_nat 0) with 0. change (Z.of_nat 1) with 1.
      change (Z.of_nat 2) with 2.
      rewrite (for_attempts_next w cfg url params max_retries 0 _ st st2 A0).
      apply for_attempts_next.
      rewrite (attempt_once_responds w cfg url params max_retries 1 st2 r2 H2).
      unfold try_except.
      rewrite (after_response_backoff w cfg max_retries 1 r2);
        [ reflexivity | rewrite Hs2; lia | rewrite Hs2; lia | lia | lia
        | unfold SLEEP_MAX; cbn; lia ].
    + destruct (attempt_once_trace w cfg url params max_retries 2
                  (log (ESleep 2) st3)) as [tr Htr].
      exists tr. rewrite Htr. cbn [log trace headers].
      now rewrite <- app_assoc.
Qed.

Lemma repeated_401_backs_off_witness :
  make_api_request (builtins := Samples.decimal_builtins)
    Samples.w_auth Samples.cfg0 ACTIVITIES_URL None 3 Samples.st0
  = for_attempts (builtins := Samples.decimal_builtins)
      Samples.w_auth Samples.cfg0 ACTIVITIES_URL None 3 [2]
      (log (ESleep 2)
         (sent (snd (set_authorization "Bearer new-access" Samples.st_refreshed))
               ACTIVITIES_URL None)).
Proof.
  pose proof (repeated_401_backs_off (builtins := Samples.decimal_builtins)
                Samples.w_auth Samples.cfg0 ACTIVITIES_URL None 3 Samples.st0
                Samples.st_refreshed (Samples.status_only 401)
                (Samples.status_only 401) (VStr "new-access")
                eq_refl eq_refl eq_refl eq_refl eq_refl) as H.
  destruct H as [_ H]. destruct H as [H _]; [ lia | ]. exact H.
Defined.

(** ** The credential refresher *)

(** The endpoint hands out new tokens and the disk refuses the write. *)
Example refresh_with_failing_disk :
  let out := refresh_access_token (builtins := Samples.decimal_builtins)
               (Samples.w_refresh false) Samples.cfg0 Samples.st0 in
  fst out = Raise OSError /\
  environ (snd out)
  = [ ("STRAVA_ACCESS_TOKEN", "new-access");
      ("STRAVA_REFRESH_TOKEN", "new-refresh");
      ("STRAVA_TOKEN_EXPIRES_AT", "1900000000") ] /\
  written_paths (trace (snd out)) = [".env"].
Proof. vm_compute. repeat split. Qed.

(** C6, as stated, fails: when the write of [.env] fails, the refresher
    raises and its caller gets no token. *)
Lemma persistence_failure_blocks_token :
  ~ (exists B : Builtins,
      forall (w : world) (cfg : config) (st : state) (access refresh : string)
        (expires_at : value),
        exchange_succeeds w cfg st access refresh expires_at ->
        fst (refresh_access_token w cfg st) = Ok (VStr access)).
Proof.
  intros [B claim].
  assert (K := claim (Samples.w_refresh false) Samples.cfg0 Samples.st0
                 "new-access" "new-refresh" (VInt 1900000000)).
  assert (H : exchange_succeeds (Samples.w_refresh false) Samples.cfg0
                Samples.st0 "new-access" "new-refresh" (VInt 1900000000)).
  { repeat split.
    exists Samples.token_response, (VDict [ ("access_token", VStr "new-access");
                   ("refresh_token", VStr "new-refresh");
                   ("expires_at", VInt 1900000000) ]).
    repeat split. }
  specialize (K H). vm_compute in K. discriminate K.
Qed.

(** C6, amended.  On a token exchange that goes through, the refresher
    first stores the new access token, refresh token and expiry in the
    process environment, and only then writes [.env].  If that write
    succeeds it returns the new access token.  If it fails, the failure
    surfaces as the [OSError] the refresher raises: the caller receives no
    token, while the environment keeps the new values. *)
Theorem refresh_updates_then_persists {builtins : Builtins}
  (w : world) (cfg : config) (st : state) (access refresh : string)
  (expires_at : value) :
  exchange_succeeds w cfg st access refresh expires_at ->
  let out := refresh_access_token w cfg st in
  let disk_ok := file_write_ok w (n_open st) ".env" in
  let content := env_content cfg (VStr access) (VStr refresh) expires_at in
  fst out = (if disk_ok then Ok (VStr access) else Raise OSError) /\
  trace (snd out)
  = trace st ++
      [ EPost TOKEN_URL (token_form cfg);
        ESetEnv "STRAVA_ACCESS_TOKEN" access;
        ESetEnv "STRAVA_REFRESH_TOKEN" refresh;
        ESetEnv "STRAVA_TOKEN_EXPIRES_AT" (py_str expires_at);
        if disk_ok then EWrite ".env" content else EWriteFailed ".env" ] /\
  environ (snd out)
  = dict_set
      (dict_set (dict_set (environ st) "STRAVA_ACCESS_TOKEN" access)
         "STRAVA_REFRESH_TOKEN" refresh)
      "STRAVA_TOKEN_EXPIRES_AT" (py_str expires_at).
Proof.
  intros (Hr & Hc & Hs & r & data & Hpost & Hst & Hjson & Ha & Hrf & He
          & Na & Nr & Ne) out disk_ok content.
  assert (E : out
              = (if disk_ok then Ok (VStr access) else Raise OSError,
                 mkState (headers st)
                   (dict_set
                      (dict_set (dict_set (environ st) "STRAVA_ACCESS_TOKEN" access)
                         "STRAVA_REFRESH_TOKEN" refresh)
                      "STRAVA_TOKEN_EXPIRES_AT" (py_str expires_at))
                   (n_get st) (S (n_post st)) (S (n_open st))
                   (((((trace st ++ [EPost TOKEN_URL (token_form cfg)])
                        ++ [ESetEnv "STRAVA_ACCESS_TOKEN" access])
                       ++ [ESetEnv "STRAVA_REFRESH_TOKEN" refresh])
                      ++ [ESetEnv "STRAVA_TOKEN_EXPIRES_AT" (py_str expires_at)])
                     ++ [if disk_ok then EWrite ".env" content
                         else EWriteFailed ".env"]))).
  { unfold out, refresh_access_token.
    rewrite Hr, Hc, Hs. cbn [andb negb].
    unfold bind at 1. unfold requests_post. rewrite Hpost.
    rewrite Hst. cbn [Z.eqb Pos.eqb negb].
    unfold bind at 1. unfold lift at 1. unfold response_json. rewrite Hjson.
    unfold bind at 1. unfold lift at 1. rewrite Ha.
    unfold bind at 1. unfold environ_set at 1. rewrite Na.
    unfold bind at 1. unfold lift at 1. rewrite Hrf.
    unfold bind at 1. unfold environ_set at 1. rewrite Nr.
    unfold bind at 1. unfold lift at 1. rewrite He.
    unfold bind at 1. unfold environ_set at 1. rewrite Ne.
    unfold bind at 1. unfold write_file.
    cbn [n_open headers environ trace n_get n_post].
    fold disk_ok. fold content.
    destruct disk_ok; reflexivity. }
  rewrite E. cbn [fst snd trace environ].
  repeat rewrite <- app_assoc. repeat split; reflexivity.
Qed.

Lemma refresh_updates_then_persists_witness :
  fst (refresh_access_token (builtins := Samples.decimal_builtins)
         (Samples.w_refresh true) Samples.cfg0 Samples.st0)
  = Ok (VStr "new-access")
  /\
  fst (refresh_access_token (builtins := Samples.decimal_builtins)
         (Samples.w_refresh false) Samples.cfg0 Samples.st0)
  = Raise OSError.
Proof.
  split.
  - apply (refresh_updates_then_persists (builtins := Samples.decimal_builtins)
             (Samples.w_refresh true) Samples.cfg0 Samples.st0
             "new-access" "new-refresh" (VInt 1900000000)).
    repeat split. eexists. eexists. repeat split.
  - apply (refresh_updates_then_persists (builtins := Samples.decimal_builtins)
             (Samples.w_refresh false) Samples.cfg0 Samples.st0
             "new-access" "new-refresh" (VInt 1900000000)).
    repeat split. eexists. eexists. repeat split.
Defined.

(** ** The pager *)

Section PagerSteps.

Context {builtins : Builtins}.
Variables (w : world) (cfg : config) (after : Z).

Lemma append_rows_app (l1 l2 : list value) (acc : list row) :
  append_rows (l1 ++ l2) acc = rbind (append_rows l1 acc) (append_rows l2).
Proof.
  revert acc. induction l1 as [ | a l1 IH]; intros acc; cbn [append_rows app rbind].
  - reflexivity.
  - destruct (normalize a); cbn [rbind]; [ apply IH | reflexivity ].
Qed.

(** The accumulator grows by the normalised records, in their order. *)
Lemma append_rows_Ok (l : list value) (acc rows : list row) :
  append_rows l acc = Ok rows ->
  exists new, rows = acc ++ new /\ Forall2 (fun a r => normalize a = Ok r) l new.
Proof.
  revert acc. induction l as [ | a l IH]; intros acc H; cbn [append_rows] in H.
  - inversion H; subst. exists []. split; [ now rewrite app_nil_r | constructor ].
  - destruct (normalize a) as [r | e] eqn:E; cbn [rbind] in H; [ | discriminate H ].
    destruct (IH _ H) as (new & -> & HF).
    exists (r :: new). split; [ now rewrite <- app_assoc | now constructor ].
Qed.

(** A request answered 200 at once is returned at once. *)
Lemma make_api_request_200 (url : string) (params : option (list (string * Z)))
  (st : state) (r : response) :
  http_get w (n_get st) (mkRequest url (headers st) params 30) = Responds r ->
  status_code r = 200 ->
  make_api_request w cfg url params 3 st = (Ok r, sent st url params).
Proof.
  intros Hget Hs. unfold make_api_request. change (range 3) with [0; 1; 2].
  apply for_attempts_return. now apply attempt_once_200.
Qed.

Lemma page_step_records (page : Z) (acc acc' : list row) (st : state)
  (r : response) (records : list value) :
  http_get w (n_get st)
    (mkRequest ACTIVITIES_URL (headers st) (Some (page_params after page)) 30) = Responds r ->
  status_code r = 200 ->
  json_body r = Some (VList records) -> records <> [] ->
  append_rows records acc = Ok acc' ->
  page_step w cfg after page acc st
  = (Ok (Some acc'), log (ESleep 1) (sent st ACTIVITIES_URL (Some (page_params after page)))).
Proof.
  intros Hget Hs Hj Hne Hrows. unfold page_step. cbv zeta.
  unfold bind at 1.
  rewrite (make_api_request_200 ACTIVITIES_URL (Some (page_params after page)) st r Hget Hs).
  unfold bind, lift, response_json. rewrite Hj.
  destruct records as [ | a records]; [ contradiction | ].
  cbn [truthy negb iter]. rewrite Hrows.
  rewrite time_sleep_ok by (unfold SLEEP_MAX; lia). reflexivity.
Qed.

Lemma page_step_empty (page : Z) (acc : list row) (st : state) (r : response) :
  http_get w (n_get st)
    (mkRequest ACTIVITIES_URL (headers st) (Some (page_params after page)) 30) = Responds r ->
  status_code r = 200 ->
  json_body r = Some (VList []) ->
  page_step w cfg after page acc st
  = (Ok None, sent st ACTIVITIES_URL (Some (page_params after page))).
Proof.
  intros Hget Hs Hj. unfold page_step. cbv zeta.
  unfold bind at 1.
  rewrite (make_api_request_200 ACTIVITIES_URL (Some (page_params after page)) st r Hget Hs).
  unfold bind, lift, response_json. rewrite Hj. reflexivity.
Qed.

End PagerSteps.

(** C4.  When the server answers the requests for pages 1 and 2 with
    non-empty lists of records (which the normaliser accepts) and the
    request for page 3 with an empty list, the pager ends normally with the
    rows of the records of page 1 followed by those of page 2.  It sends
    exactly three requests, for pages 1, 2 and 3 in that order, sleeps one
    second after each non-empty page, and never asks for page 4. *)
Theorem pager_stops_at_first_empty_page {builtins : Builtins}
  (w : world) (cfg : config) (after : Z) (st : state) (fuel : nat)
  (r1 r2 r3 : response) (l1 l2 : list value) (rows : list row) :
  let req page :=
    mkRequest ACTIVITIES_URL (headers st) (Some (page_params after page)) 30 in
  http_get w (n_get st) (req 1) = Responds r1 ->
  http_get w (1 + n_get st) (req 2) = Responds r2 ->
  http_get w (2 + n_get st) (req 3) = Responds r3 ->
  status_code r1 = 200 -> status_code r2 = 200 -> status_code r3 = 200 ->
  json_body r1 = Some (VList l1) -> l1 <> [] ->
  json_body r2 = Some (VList l2) -> l2 <> [] ->
  json_body r3 = Some (VList []) ->
  append_rows (l1 ++ l2) [] = Ok rows ->
  (3 <= fuel)%nat ->
  fetch_pages w cfg after fuel 1 [] st
  = Some (Ok rows,
          mkState (headers st) (environ st) (3 + n_get st) (n_post st) (n_open st)
            (trace st ++ [EGet (req 1); ESleep 1; EGet (req 2); ESleep 1;
                          EGet (req 3)]))
  /\ Forall2 (fun a r => normalize a = Ok r) (l1 ++ l2) rows
  /\ map page_of [req 1; req 2; req 3] = [Some 1; Some 2; Some 3].
Proof.
  intros req H1 H2 H3 S1 S2 S3 J1 N1 J2 N2 J3 Hrows Hfuel.
  rewrite append_rows_app in Hrows.
  destruct (append_rows l1 []) as [rows1 | e] eqn:E1; cbn [rbind] in Hrows;
    [ | discriminate Hrows ].
  destruct fuel as [ | [ | [ | fuel]]]; try lia.
  split; [ | split ].
  - cbn [fetch_pages].
    rewrite (page_step_records w cfg after 1 [] rows1 st r1 l1 H1 S1 J1 N1 E1).
    set (st1 := log (ESleep 1) (sent st ACTIVITIES_URL (Some (page_params after 1)))).
    change (1 + 1) with 2.
    rewrite (page_step_records w cfg after 2 rows1 rows st1 r2 l2 H2 S2 J2 N2 Hrows).
    set (st2 := log (ESleep 1) (sent st1 ACTIVITIES_URL (Some (page_params after 2)))).
    change (2 + 1) with 3.
    rewrite (page_step_empty w cfg after 3 rows st2 r3 H3 S3 J3).
    do 2 f_equal.
    unfold st2, st1, sent, log, req.
    cbn [headers environ n_get n_post n_open trace].
    f_equal. repeat rewrite <- app_assoc. reflexivity.
  - assert (Hall : append_rows (l1 ++ l2) [] = Ok rows)
      by (rewrite append_rows_app, E1; exact Hrows).
    destruct (append_rows_Ok _ _ _ Hall) as (new & -> & HF). exact HF.
  - reflexivity.
Qed.

Lemma pager_stops_at_first_empty_page_witness :
  exists rows st',
    fetch_pages (builtins := Samples.decimal_builtins) Samples.w_pages
      Samples.cfg0 1700000000 3 1 [] Samples.st0 = Some (Ok rows, st') /\
    List.length rows = 3%nat /\
    map page_of (gets (trace st')) = [Some 1; Some 2; Some 3].
Proof.
  destruct (append_rows (Samples.two_pages 1 ++ Samples.two_pages 2) [])
    as [rows | e] eqn:E; [ | vm_compute in E; discriminate E ].
  destruct (pager_stops_at_first_empty_page (builtins := Samples.decimal_builtins)
              Samples.w_pages Samples.cfg0 1700000000 Samples.st0 3
              (Samples.page_of_records (Samples.two_pages 1))
              (Samples.page_of_records (Samples.two_pages 2))
              (Samples.page_of_records (Samples.two_pages 3))
              (Samples.two_pages 1) (Samples.two_pages 2) rows
              eq_refl eq_refl eq_refl eq_refl eq_refl eq_refl
              eq_refl ltac:(discriminate) eq_refl ltac:(discriminate) eq_refl
              E ltac:(lia)) as (H & HF & _).
  eexists. eexists. split; [ exact H | ].
  split.
  - apply Forall2_length in HF. rewrite <- HF. reflexivity.
  - reflexivity.
Defined.

(** ** The whole run *)

Lemma fetch_pages_same_outputs {builtins : Builtins}
  (w : world) (cfg : config) (after : Z) (fuel : nat) (page : Z)
  (all_activities : list row) (st : state) res st' :
  fetch_pages w cfg after fuel page all_activities st = Some (res, st') ->
  output_writes (trace st') = output_writes (trace st).
Proof.
  apply (fetch_pages_keeps same_outputs same_outputs_refl same_outputs_trans
           w cfg sleep_same_outputs (post_same_outputs w) environ_same_outputs
           (dotenv_same_outputs w) authorization_same_outputs
           (get_same_outputs w)).
Qed.

(** A loop that ends within [fuel] passes ends the same way with more. *)
Lemma fetch_pages_more_fuel {builtins : Builtins}
  (w : world) (cfg : config) (after : Z) (fuel fuel' : nat) :
  (fuel <= fuel')%nat ->
  forall (page : Z) (all_activities : list row) (st : state) out,
    fetch_pages w cfg after fuel page all_activities st = Some out ->
    fetch_pages w cfg after fuel' page all_activities st = Some out.
Proof.
  revert fuel'. induction fuel as [ | fuel IH]; intros fuel' Hle page acc st out H.
  - discriminate H.
  - destruct fuel' as [ | fuel']; [ lia | ].
    cbn [fetch_pages] in *.
    destruct (page_step w cfg after page acc st) as [[[acc' | ] | e] st1];
      try exact H.
    apply IH; [ lia | exact H ].
Qed.

(** C7.  A run writes the two output files only after the paginated fetch
    and the normalisation have completed.  If the access token is missing,
    [main] raises before doing anything.  If the fetch loop raises for any
    reason (a configuration error met by the refresher, a failed token
    exchange, an exhausted retry budget, a record without a mandatory
    key, ...), [main] returns 1 and has made no attempt to write either
    output file.  Conversely, whenever a run has touched an output file,
    its fetch loop had completed with a non-empty list of rows. *)
Theorem no_output_without_complete_fetch {builtins : Builtins} {pandas : Pandas}
  (w : world) (cfg : config) (after : Z) (fuel : nat) (st : state) :
  (is_set (ACCESS_TOKEN cfg) = false ->
   exists msg, main w cfg after fuel st = Some (Raise (ValueError msg), st)) /\
  (forall e st1,
     is_set (ACCESS_TOKEN cfg) = true ->
     fetch_pages w cfg after fuel 1 [] (initial_headers cfg st)
     = Some (Raise e, st1) ->
     output_writes (trace st1) = output_writes (trace st) /\
     forall fuel', (fuel <= fuel')%nat ->
       main w cfg after fuel' st = Some (Ok (Some 1), st1)) /\
  (forall res st',
     main w cfg after fuel st = Some (res, st') ->
     output_writes (trace st') <> output_writes (trace st) ->
     exists rows st1,
       fetch_pages w cfg after fuel 1 [] (initial_headers cfg st)
       = Some (Ok rows, st1) /\ rows <> []).
Proof.
  split; [ | split ].
  - intros Hcfg. unfold main. rewrite Hcfg. cbn [negb]. eexists. reflexivity.
  - intros e st1 Hcfg Hfetch. split.
    + exact (fetch_pages_same_outputs w cfg after fuel 1 [] _ _ _ Hfetch).
    + intros fuel' Hle. unfold main. rewrite Hcfg. cbn [negb].
      now rewrite (fetch_pages_more_fuel w cfg after fuel fuel' Hle _ _ _ _ Hfetch).
  - intros res st' Hmain Hout. unfold main in Hmain.
    destruct (is_set (ACCESS_TOKEN cfg)); cbn [negb] in Hmain.
    + destruct (fetch_pages w cfg after fuel 1 [] (initial_headers cfg st))
        as [[[rows | e] st1] | ] eqn:Hfetch; [ | | discriminate Hmain ].
      * pose proof (fetch_pages_same_outputs w cfg after fuel 1 [] _ _ _ Hfetch)
          as Hsame.
        destruct rows as [ | row rows].
        -- cbn in Hmain. inversion Hmain; subst. now elim Hout.
        -- exists (row :: rows), st1. split; [ reflexivity | discriminate ].
      * pose proof (fetch_pages_same_outputs w cfg after fuel 1 [] _ _ _ Hfetch)
          as Hsame.
        inversion Hmain; subst. now elim Hout.
    + inversion Hmain; subst. now elim Hout.
Qed.

Lemma no_output_without_complete_fetch_witness :
  exists st1,
    main (builtins := Samples.decimal_builtins) (pandas := Samples.plain_pandas)
      Samples.w_broken Samples.cfg0 1700000000 5 Samples.st0
    = Some (Ok (Some 1), st1) /\
    output_writes (trace st1) = [].
Proof.
  destruct (fetch_pages (builtins := Samples.decimal_builtins) Samples.w_broken
              Samples.cfg0 1700000000 5 1 []
              (initial_headers Samples.cfg0 Samples.st0))
    as [[[rows | e] st1] | ] eqn:E;
    try (vm_compute in E; discriminate E).
  exists st1.
  destruct (proj1 (proj2 (no_output_without_complete_fetch
                            (builtins := Samples.decimal_builtins)
                            (pandas := Samples.plain_pandas)
                            Samples.w_broken Samples.cfg0 1700000000 5
                            Samples.st0))
              e st1 eq_refl E) as [Hout Hmain].
  split; [ apply Hmain; lia | exact Hout ].
Defined.

(** * Further properties of the script *)

(** ** The record normaliser, continued *)

Lemma has_key_true (d : list (string * value)) (k : string) :
  has_key (VDict d) k = true <-> exists v, dict_get d k = Some v.
Proof.
  unfold has_key. destruct (dict_get d k) as [v | ]; split.
  - intros _. now exists v.
  - reflexivity.
  - discriminate.
  - intros [v H]. discriminate H.
Qed.

Lemma numeric_conversion_Ok (v : value) :
  (exists y, distance_km v = Ok y) <-> (exists q, as_number v = Some q).
Proof.
  unfold distance_km, truediv.
  destruct (as_number v) as [q | ]; cbn [rbind]; split;
    intros [x H]; try discriminate H; eauto.
Qed.


(** X2.  A record that lacks one of the keys read unconditionally is
    rejected with the [KeyError] of the first such key it lacks, in the
    order id, name, type, start_date_local.  This holds for [type] whether
    or not the record has a [sport_type]: the fallback is evaluated before
    [get] is called. *)
Theorem normalize_first_missing_key
  (d : list (string * value)) (before : list string) (k : string)
  (rest : list string) :
  MANDATORY_KEYS = before ++ k :: rest ->
  (forall k', In k' before -> has_key (VDict d) k' = true) ->
  has_key (VDict d) k = false ->
  normalize (VDict d) = Raise (KeyError k).
Proof.
  intros Heq Hpre Habs. unfold MANDATORY_KEYS in Heq.
  assert (Hk : dict_get d k = None).
  { unfold has_key in Habs. now destruct (dict_get d k). }
  assert (Hget : forall k', In k' before -> exists v, dict_get d k' = Some v).
  { intros k' Hin. apply has_key_true. now apply Hpre. }
  destruct before as [ | b1 [ | b2 [ | b3 [ | b4 [ | b5 before]]]]];
    cbn [app] in Heq; inversion Heq; subst; clear Heq;
    unfold normalize, getitem, get.
  - now rewrite Hk.
  - destruct (Hget "id") as [v1 E1]; [ cbn; tauto | ].
    rewrite E1. cbn [rbind]. now rewrite Hk.
  - destruct (Hget "id") as [v1 E1]; [ cbn; tauto | ].
    destruct (Hget "name") as [v2 E2]; [ cbn; tauto | ].
    rewrite E1. cbn [rbind]. rewrite E2. cbn [rbind]. now rewrite Hk.
  - destruct (Hget "id") as [v1 E1]; [ cbn; tauto | ].
    destruct (Hget "name") as [v2 E2]; [ cbn; tauto | ].
    destruct (Hget "type") as [v3 E3]; [ cbn; tauto | ].
    rewrite E1. cbn [rbind]. rewrite E2. cbn [rbind]. rewrite E3. cbn [rbind].
    destruct (dict_get d "sport_type"); cbn [rbind]; now rewrite Hk.
Qed.

Lemma normalize_first_missing_key_witness :
  normalize MoreSamples.typeless_activity = Raise (KeyError "type").
Proof.
  apply (normalize_first_missing_key _ ["id"; "name"] "type" ["start_date_local"]).
  - reflexivity.
  - intros k' [<- | [<- | []]]; reflexivity.
  - reflexivity.
Defined.

(** X3.  In an accepted record, the identifier, name, sport type, start
    date, elevation gain, heart rates, calories and the two flags are
    copied into the row exactly as they are when present (a JSON null
    stays a null; it is not replaced by the empty string), and a record
    without [sport_type] gets the value of [type] in its place. *)
Theorem present_field_kept_verbatim (activity : value) (r : row) :
  normalize activity = Ok r ->
  (forall raw_key row_key v,
      In (raw_key, row_key) VERBATIM_FIELDS ->
      getitem activity raw_key = Ok v ->
      dict_get r row_key = Some v) /\
  (has_key activity "sport_type" = false ->
   forall t, getitem activity "type" = Ok t ->
             dict_get r "sport_type" = Some t).
Proof.
  intros H. apply normalize_inv in H.
  destruct H as (d & id & name & type & start & dk & mt & et & av & mx & H).
  destruct H as (-> & Hid & Hname & Htype & Hstart & _ & _ & _ & _ & _ & ->).
  split.
  - intros raw_key row_key v Hin Hv.
    apply getitem_Ok in Hv as (d' & Hd' & Hv). inversion Hd'; subst d'; clear Hd'.
    unfold VERBATIM_FIELDS in Hin. cbn [In] in Hin.
    repeat (destruct Hin as [Hin | Hin];
            [ inversion Hin; subst; clear Hin;
              unfold dget; try rewrite Hv; cbn; congruence | ]).
    contradiction.
  - intros Habs t Ht.
    apply getitem_Ok in Ht as (d' & Hd' & Ht). inversion Hd'; subst d'; clear Hd'.
    rewrite (has_key_dget d "sport_type" type Habs). cbn. congruence.
Qed.

Lemma present_field_kept_verbatim_witness :
  exists r,
    normalize MoreSamples.null_heartrate = Ok r /\
    dict_get r "average_heartrate" = Some VNone /\
    dict_get r "trainer" = Some (VBool true) /\
    dict_get r "sport_type" = Some (VStr "Rowing").
Proof.
  destruct (normalize MoreSamples.null_heartrate) as [r | e] eqn:E;
    [ | vm_compute in E; discriminate E ].
  exists r. split; [ reflexivity | ].
  destruct (present_field_kept_verbatim _ r E) as [Hcopy Hsport].
  split; [ | split ].
  - apply (Hcopy "average_heartrate"); [ cbn; tauto | reflexivity ].
  - apply (Hcopy "trainer"); [ cbn; tauto | reflexivity ].
  - apply Hsport; reflexivity.
Defined.





(** ** The request executor, continued *)

Section BackoffSteps.

Context {builtins : Builtins}.
Variables (w : world) (cfg : config) (url : string)
          (params : option (list (string * Z))) (max_retries : Z).

Lemma retryable_status (r : response) :
  retryable (Responds r) = true ->
  status_code r <> 200 /\ status_code r <> 429 /\ status_code r <> 401.
Proof.
  cbn [retryable]. intros H.
  apply andb_prop in H as [H H401]. apply andb_prop in H as [H200 H429].
  apply negb_true_iff, Z.eqb_neq in H200, H429, H401. tauto.
Qed.

(** A retryable reply while passes remain: back off [2 ^ attempt]. *)
Lemma attempt_once_retryable (attempt : Z) (st : state) :
  retryable (http_get w (n_get st) (mkRequest url (headers st) params 30)) = true ->
  attempt < max_retries - 1 -> 0 <= 2 ^ attempt <= SLEEP_MAX ->
  attempt_once w cfg url params max_retries attempt st
  = (Ok NextAttempt, log (ESleep (2 ^ attempt)) (sent st url params)).
Proof.
  intros Hre Hlt Hsl.
  destruct (http_get w (n_get st) (mkRequest url (headers st) params 30))
    as [r | kind] eqn:Hget.
  - destruct (retryable_status r Hre) as (H200 & H429 & H401).
    rewrite (attempt_once_responds w cfg url params max_retries attempt st r Hget).
    unfold try_except.
    rewrite after_response_backoff; try assumption; try reflexivity.
    intros E. contradiction.
  - rewrite (attempt_once_fails w cfg url params max_retries attempt st kind Hget).
    unfold on_request_exception, bind, ret.
    destruct (Z.eqb_spec attempt (max_retries - 1)); [ lia | ].
    now rewrite time_sleep_ok.
Qed.

(** The last pass on a status that is neither an error nor 200: nothing is
    raised inside the loop. *)
Lemma attempt_once_last_no_error (attempt : Z) (st : state) (r : response) :
  http_get w (n_get st) (mkRequest url (headers st) params 30) = Responds r ->
  retryable (Responds r) = true -> transient (Responds r) = false ->
  ~ attempt < max_retries - 1 ->
  attempt_once w cfg url params max_retries attempt st
  = (Ok NextAttempt, sent st url params).
Proof.
  intros Hget Hre Htr Hlast.
  destruct (retryable_status r Hre) as (H200 & H429 & H401).
  rewrite (attempt_once_responds w cfg url params max_retries attempt st r Hget).
  unfold try_except, after_response.
  destruct (Z.eqb_spec (status_code r) 429); [ contradiction | ].
  destruct (Z.eqb_spec (status_code r) 401); [ contradiction | ].
  destruct (Z.eqb_spec (status_code r) 200); [ contradiction | ].
  destruct (Z.ltb_spec attempt (max_retries - 1)); [ contradiction | ].
  unfold bind, lift, ret, raise_for_status.
  cbn [transient] in Htr.
  destruct ((400 <=? status_code r) && (status_code r <? 600)) eqn:E.
  - exfalso. rewrite (proj2 (Z.eqb_neq _ _) H429) in Htr.
    rewrite (proj2 (Z.eqb_neq _ _) H401) in Htr. discriminate Htr.
  - reflexivity.
Qed.

Lemma after_backoffs_app (l1 l2 : list Z) (st : state) :
  after_backoffs url params (l1 ++ l2) st
  = after_backoffs url params l2 (after_backoffs url params l1 st).
Proof.
  revert st. induction l1 as [ | a l1 IH]; intros st; cbn [after_backoffs app].
  - reflexivity.
  - apply IH.
Qed.

Lemma after_backoffs_facts (attempts : list Z) (st : state) :
  let st' := after_backoffs url params attempts st in
  headers st' = headers st /\
  n_get st' = (n_get st + List.length attempts)%nat /\
  n_post st' = n_post st /\
  environ st' = environ st /\
  sleeps (trace st') = sleeps (trace st) ++ map (fun a => 2 ^ a) attempts /\
  List.length (gets (trace st'))
  = (List.length (gets (trace st)) + List.length attempts)%nat.
Proof.
  revert st. induction attempts as [ | a attempts IH]; intros st;
    cbn [after_backoffs List.length map].
  - rewrite app_nil_r. repeat split; lia.
  - destruct (IH (log (ESleep (2 ^ a)) (sent st url params)))
      as (H1 & H2 & H3 & H4 & H5 & H6).
    cbv zeta. rewrite H1, H2, H3, H4, H5, H6.
    unfold log, sent, sleeps, gets. cbn [headers n_get n_post environ trace].
    rewrite !flat_map_app. cbn [flat_map app]. rewrite !app_nil_r.
    rewrite !length_app. cbn [List.length].
    rewrite <- !app_assoc. cbn [app].
    repeat split; lia.
Qed.

(** Retryable replies on a run of passes that are not the last: one
    back-off per pass, then the loop goes on with the remaining passes. *)
Lemma for_attempts_backoffs (attempts rest : list Z) (st : state) :
  (forall i a, nth_error attempts i = Some a ->
     a < max_retries - 1 /\ 0 <= 2 ^ a <= SLEEP_MAX /\
     retryable (http_get w (n_get st + i)
                  (mkRequest url (headers st) params 30)) = true) ->
  for_attempts w cfg url params max_retries (attempts ++ rest) st
  = for_attempts w cfg url params max_retries rest
      (after_backoffs url params attempts st).
Proof.
  revert st. induction attempts as [ | a attempts IH]; intros st H.
  - reflexivity.
  - destruct (H 0%nat a eq_refl) as (Hlt & Hsl & Hre).
    rewrite Nat.add_0_r in Hre.
    cbn [app after_backoffs].
    rewrite (for_attempts_next w cfg url params max_retries a _ st _
               (attempt_once_retryable a st Hre Hlt Hsl)).
    apply IH. intros i b Hi.
    destruct (H (S i) b Hi) as (Hlt' & Hsl' & Hre').
    cbn [log sent n_get headers].
    replace (S (n_get st) + i)%nat with (n_get st + S i)%nat by lia.
    tauto.
Qed.

Lemma range_split (n : Z) (k : nat) :
  (k <= Z.to_nat n)%nat ->
  range n = range (Z.of_nat k) ++ map Z.of_nat (seq k (Z.to_nat n - k)).
Proof.
  intros H. unfold range. rewrite Nat2Z.id.
  replace (Z.to_nat n) with (k + (Z.to_nat n - k))%nat at 1 by lia.
  now rewrite seq_app, map_app.
Qed.

Lemma nth_error_range (k i : nat) (a : Z) :
  nth_error (range (Z.of_nat k)) i = Some a -> a = Z.of_nat i /\ (i < k)%nat.
Proof.
  unfold range. rewrite Nat2Z.id. intros H.
  rewrite nth_error_map, nth_error_seq in H.
  destruct (Nat.ltb_spec i k); [ | discriminate H ].
  cbn in H. inversion H. split; [ reflexivity | assumption ].
Qed.

Lemma pow2_sleepable (i : nat) :
  (i <= 33)%nat -> 0 <= 2 ^ Z.of_nat i <= SLEEP_MAX.
Proof.
  intros H. split; [ apply Z.pow_nonneg; lia | ].
  transitivity (2 ^ 33).
  - apply Z.pow_le_mono_r; lia.
  - unfold SLEEP_MAX. cbn. lia.
Qed.

End BackoffSteps.

(** X5.  Whatever the budget, as long as it allows one pass, a first reply
    with status 200 is returned at once: one request, no sleep, no token
    exchange, headers untouched. *)
Theorem first_reply_200_returns {builtins : Builtins}
  (w : world) (cfg : config) (url : string)
  (params : option (list (string * Z))) (max_retries : Z) (st : state)
  (r : response) :
  0 < max_retries ->
  http_get w (n_get st) (mkRequest url (headers st) params 30) = Responds r ->
  status_code r = 200 ->
  make_api_request w cfg url params max_retries st
  = (Ok r, sent st url params).
Proof.
  intros Hpos Hget Hs. unfold make_api_request. rewrite (range_pos _ Hpos).
  apply for_attempts_return. now apply attempt_once_200.
Qed.

Lemma first_reply_200_returns_witness :
  make_api_request (builtins := Samples.decimal_builtins)
    MoreSamples.w_no_activities Samples.cfg0 ACTIVITIES_URL None 1 Samples.st0
  = (Ok (Samples.page_of_records []),
     sent Samples.st0 ACTIVITIES_URL None).
Proof.
  apply (first_reply_200_returns (builtins := Samples.decimal_builtins));
    [ lia | reflexivity | reflexivity ].
Defined.



(** X7.  The back-off schedule for any budget: when the first [k] replies
    are retryable (network faults or statuses other than 200, 429, 401),
    with [k] below the budget, and the next reply is a 200, the call
    returns that response after sleeping 1, 2, 4, ..., 2^(k-1) seconds,
    one sleep after each failure, having sent [k + 1] requests with
    unchanged headers and no token exchange.  (Stated for [k <= 34]: a
    back-off of 2^34 seconds is more than [time.sleep] accepts.) *)
Theorem backoff_schedule_then_success {builtins : Builtins}
  (w : world) (cfg : config) (url : string)
  (params : option (list (string * Z))) (max_retries : Z) (k : nat)
  (st : state) (r : response) :
  let req := mkRequest url (headers st) params 30 in
  Z.of_nat k < max_retries -> (k <= 34)%nat ->
  (forall i, (i < k)%nat -> retryable (http_get w (n_get st + i) req) = true) ->
  http_get w (n_get st + k) req = Responds r ->
  status_code r = 200 ->
  let out := make_api_request w cfg url params max_retries st in
  fst out = Ok r /\
  sleeps (trace (snd out))
  = sleeps (trace st) ++ map (fun a => 2 ^ a) (range (Z.of_nat k)) /\
  n_get (snd out) = (n_get st + k + 1)%nat /\
  n_post (snd out) = n_post st /\
  headers (snd out) = headers st.
Proof.
  intros req Hk H34 Hre Hget Hs out. unfold out, make_api_request.
  rewrite (range_split max_retries k) by lia.
  replace (Z.to_nat max_retries - k)%nat
    with (S (Z.to_nat max_retries - k - 1)) by lia.
  cbn [seq map].
  rewrite (for_attempts_backoffs w cfg url params max_retries).
  - set (st_k := after_backoffs url params (range (Z.of_nat k)) st).
    destruct (after_backoffs_facts url params (range (Z.of_nat k)) st)
      as (Hh & Hn & Hp & _ & Hsl & _).
    fold st_k in Hh, Hn, Hp, Hsl. rewrite range_length, Nat2Z.id in Hn.
    assert (Hget' : http_get w (n_get st_k)
                      (mkRequest url (headers st_k) params 30) = Responds r)
      by (rewrite Hh, Hn; exact Hget).
    rewrite (for_attempts_return w cfg url params max_retries _ _ st_k _ r
               (attempt_once_200 w cfg url params max_retries _ st_k r Hget' Hs)).
    cbn [fst snd sent trace n_get n_post headers].
    unfold sleeps in *. rewrite flat_map_app. cbn [flat_map app].
    rewrite app_nil_r, Hsl, Hn, Hp, Hh. repeat split; lia.
  - intros i a Hi. apply nth_error_range in Hi as [-> Hi].
    split; [ lia | ]. split; [ apply pow2_sleepable; lia | ].
    now apply Hre.
Qed.

Lemma backoff_schedule_then_success_witness :
  let out := make_api_request (builtins := Samples.decimal_builtins)
               MoreSamples.w_three_failures Samples.cfg0 ACTIVITIES_URL None 5
               Samples.st0 in
  fst out = Ok (Samples.page_of_records []) /\
  sleeps (trace (snd out)) = [1; 2; 4] /\
  n_get (snd out) = 4%nat.
Proof.
  destruct (backoff_schedule_then_success (builtins := Samples.decimal_builtins)
              MoreSamples.w_three_failures Samples.cfg0 ACTIVITIES_URL None 5 3
              Samples.st0 (Samples.page_of_records []))
    as (H1 & H2 & H3 & _); try reflexivity; try lia.
  - intros i Hi. destruct i as [ | [ | [ | i]]]; try reflexivity. lia.
  - repeat split; assumption.
Defined.

(** X8.  How a call runs out of passes.  With no pass to make
    ([max_retries <= 0]) it raises the "Unexpected error" exception without
    sending anything.  Otherwise, when every reply is retryable, it sends
    [max_retries] requests, sleeping 1, 2, ..., 2^(max_retries-2) seconds
    between them, and ends on the last reply: an error status (4xx, 5xx) or
    a network fault is raised wrapped in "API request failed after
    max_retries attempts", while a status that [raise_for_status] lets
    through (1xx, 3xx, or a 2xx other than 200) ends in the "Unexpected
    error" exception.  (Stated for budgets up to 35, so that every
    back-off is a length [time.sleep] accepts.) *)
Theorem exhausted_budget {builtins : Builtins}
  (w : world) (cfg : config) (url : string)
  (params : option (list (string * Z))) (max_retries : Z) (st : state) :
  let req := mkRequest url (headers st) params 30 in
  let n := Z.to_nat max_retries in
  (max_retries <= 0 ->
   make_api_request w cfg url params max_retries st = (Raise UnexpectedError, st)) /\
  (1 <= max_retries <= 35 ->
   (forall i, (i < n)%nat -> retryable (http_get w (n_get st + i) req) = true) ->
   let last := http_get w (n_get st + (n - 1)) req in
   let out := make_api_request w cfg url params max_retries st in
   fst out = Raise (if transient last
                    then ApiRequestFailed max_retries (failure_of last)
                    else UnexpectedError) /\
   sleeps (trace (snd out))
   = sleeps (trace st) ++ map (fun a => 2 ^ a) (range (max_retries - 1)) /\
   n_get (snd out) = (n_get st + n)%nat).
Proof.
  intros req n. split.
  - intros Hle. unfold make_api_request, range.
    replace (Z.to_nat max_retries) with 0%nat by lia. reflexivity.
  - intros Hb Hre last out. unfold out, make_api_request.
    rewrite (range_split max_retries (n - 1)) by (unfold n; lia).
    replace (Z.to_nat max_retries - (n - 1))%nat with 1%nat by (unfold n; lia).
    cbn [seq map].
    replace (Z.of_nat (n - 1)) with (max_retries - 1) by (unfold n; lia).
    rewrite (for_attempts_backoffs w cfg url params max_retries).
    + set (st_k := after_backoffs url params (range (max_retries - 1)) st).
      destruct (after_backoffs_facts url params (range (max_retries - 1)) st)
        as (Hh & Hn & _ & _ & Hsl & _).
      fold st_k in Hh, Hn, Hsl. rewrite range_length in Hn.
      replace (Z.to_nat (max_retries - 1)) with (n - 1)%nat in Hn by (unfold n; lia).
      assert (Hlast : http_get w (n_get st_k)
                        (mkRequest url (headers st_k) params 30) = last)
        by (rewrite Hh, Hn; reflexivity).
      assert (Hre_last : retryable last = true) by (apply Hre; unfold n; lia).
      assert (Hobs : sleeps (trace (sent st_k url params))
                     = sleeps (trace st)
                         ++ map (fun a => 2 ^ a) (range (max_retries - 1))
                     /\ n_get (sent st_k url params) = (n_get st + n)%nat).
      { cbn [sent trace n_get]. unfold sleeps in *. rewrite flat_map_app.
        cbn [flat_map app]. rewrite app_nil_r, Hsl, Hn.
        split; [ reflexivity | unfold n; lia ]. }
      destruct (transient last) eqn:Htr.
      * rewrite (for_attempts_raise w cfg url params max_retries _ _ st_k _ _
                   (attempt_once_transient_last w cfg url params max_retries
                      st_k last Hlast Htr)).
        cbn [fst snd]. tauto.
      * destruct last as [r | kind] eqn:El; [ | discriminate Htr ].
        rewrite (for_attempts_next w cfg url params max_retries _ _ st_k _
                   (attempt_once_last_no_error w cfg url params max_retries
                      (max_retries - 1) st_k r Hlast Hre_last Htr ltac:(lia))).
        cbn [for_attempts raise fst snd]. tauto.
    + intros i a Hi.
      replace (max_retries - 1) with (Z.of_nat (n - 1)) in Hi by (unfold n; lia).
      apply nth_error_range in Hi as [-> Hi].
      split; [ unfold n in Hi; lia | ].
      split; [ apply pow2_sleepable; unfold n in Hi; lia | ].
      apply Hre. lia.
Qed.

Lemma exhausted_budget_witness :
  let out := make_api_request (builtins := Samples.decimal_builtins)
               MoreSamples.w_no_content Samples.cfg0 ACTIVITIES_URL None 3
               Samples.st0 in
  fst out = Raise UnexpectedError /\
  sleeps (trace (snd out)) = [1; 2] /\
  n_get (snd out) = 3%nat.
Proof.
  apply (proj2 (exhausted_budget (builtins := Samples.decimal_builtins)
                  MoreSamples.w_no_content Samples.cfg0 ACTIVITIES_URL None 3
                  Samples.st0)).
  - lia.
  - intros i Hi. reflexivity.
Defined.

(** ** The credential refresher, continued *)

Section RefresherFootprint.

Context {builtins : Builtins}.
Variables (w : world) (cfg : config).

Ltac refresh_cases :=
  unfold refresh_access_token, bind, requests_post, lift, environ_set,
    write_file, raise, ret, response_json;
  repeat (cbv beta iota;
          match goal with
          | |- context [match ?x with _ => _ end] =>
              lazymatch x with
              | context [match _ with _ => _ end] => fail
              | _ => destruct x
              end
          end);
  cbn [snd fst headers n_get n_post n_open environ trace].

(** A refresh leaves the request headers and the count of requests alone
    and posts at most once. *)
Lemma refresh_counters (st : state) :
  let st' := snd (refresh_access_token w cfg st) in
  headers st' = headers st /\
  n_get st' = n_get st /\
  (n_post st <= n_post st' <= S (n_post st))%nat.
Proof. refresh_cases; repeat split; lia. Qed.

(** X9.  The footprint of a refresh, whatever the configuration, the
    endpoint and the disk do: it sends no GET and never sleeps; it posts at
    most once, to the token URL with the form built from the configured
    client id, client secret and refresh token; and the only file it may
    write is [.env], at most once. *)
Theorem refresh_footprint (st : state) :
  exists tr,
    trace (snd (refresh_access_token w cfg st)) = trace st ++ tr /\
    gets tr = [] /\ sleeps tr = [] /\
    (posts tr = [] \/ posts tr = [(TOKEN_URL, token_form cfg)]) /\
    (written_paths tr = [] \/ written_paths tr = [".env"]).
Proof.
  refresh_cases;
    first [ exists []; rewrite app_nil_r; cbn; tauto
          | eexists; split;
            [ repeat rewrite <- app_assoc; reflexivity | cbn; tauto ] ].
Qed.

End RefresherFootprint.

(** X10.  An exchange that does not go through changes no credential.  An
    incomplete configuration raises [ValueError] before any network call,
    leaving the state as it was.  A network fault or an answer other than
    200 raises (the fault, or the "Failed to refresh token" exception with
    the status and the body) after the one POST: the process environment
    is unchanged and nothing is written. *)
Theorem failed_exchange_changes_nothing {builtins : Builtins}
  (w : world) (cfg : config) (st : state) :
  let complete := is_set (REFRESH_TOKEN cfg) && is_set (CLIENT_ID cfg)
                  && is_set (CLIENT_SECRET cfg) in
  let posted := mkState (headers st) (environ st) (n_get st) (S (n_post st))
                  (n_open st) (trace st ++ [EPost TOKEN_URL (token_form cfg)]) in
  (complete = false ->
   exists msg, refresh_access_token w cfg st = (Raise (ValueError msg), st)) /\
  (complete = true ->
   forall kind,
     http_post w (n_post st) TOKEN_URL (token_form cfg) = Fails kind ->
     refresh_access_token w cfg st = (Raise (RequestException kind), posted)) /\
  (complete = true ->
   forall r,
     http_post w (n_post st) TOKEN_URL (token_form cfg) = Responds r ->
     status_code r <> 200 ->
     refresh_access_token w cfg st
     = (Raise (RefreshFailed (status_code r) (text r)), posted)).
Proof.
  intros complete posted. unfold refresh_access_token. fold complete.
  split; [ | split ].
  - intros ->. cbn [negb]. eexists. reflexivity.
  - intros -> kind Hpost. cbn [negb]. unfold bind, requests_post.
    now rewrite Hpost.
  - intros -> r Hpost Hs. cbn [negb]. unfold bind, requests_post.
    rewrite Hpost.
    destruct (Z.eqb_spec (status_code r) 200); [ contradiction | reflexivity ].
Qed.

Lemma failed_exchange_changes_nothing_witness :
  let out := refresh_access_token (builtins := Samples.decimal_builtins)
               MoreSamples.w_refresh_refused Samples.cfg0 Samples.st0 in
  fst out = Raise (RefreshFailed 400 "invalid refresh token") /\
  environ (snd out) = environ Samples.st0 /\
  written_paths (trace (snd out)) = [].
Proof.
  cbv zeta.
  rewrite (proj2 (proj2 (failed_exchange_changes_nothing
                           (builtins := Samples.decimal_builtins)
                           MoreSamples.w_refresh_refused Samples.cfg0 Samples.st0))
             eq_refl (mkResponse 400 None "invalid refresh token" None) eq_refl
             ltac:(discriminate)).
  repeat split.
Defined.

(** X11.  The update of the credentials is not all-or-nothing.  When the
    endpoint answers 200 with a JSON object that has [access_token] but no
    [refresh_token], the refresher raises [KeyError] after it has already
    stored the new access token in the process environment; the stored
    refresh token is not touched and [.env] is not written. *)
Theorem missing_refresh_token_half_updates {builtins : Builtins}
  (w : world) (cfg : config) (st : state) (r : response)
  (d : list (string * value)) (access : string) :
  is_set (REFRESH_TOKEN cfg) && is_set (CLIENT_ID cfg)
    && is_set (CLIENT_SECRET cfg) = true ->
  http_post w (n_post st) TOKEN_URL (token_form cfg) = Responds r ->
  status_code r = 200 ->
  json_body r = Some (VDict d) ->
  dict_get d "access_token" = Some (VStr access) ->
  has_nul access = false ->
  dict_get d "refresh_token" = None ->
  refresh_access_token w cfg st
  = (Raise (KeyError "refresh_token"),
     mkState (headers st)
       (dict_set (environ st) "STRAVA_ACCESS_TOKEN" access)
       (n_get st) (S (n_post st)) (n_open st)
       (trace st ++ [ EPost TOKEN_URL (token_form cfg);
                      ESetEnv "STRAVA_ACCESS_TOKEN" access ])).
Proof.
  intros Hc Hpost Hs Hj Ha Hn Hr. unfold refresh_access_token.
  rewrite Hc. cbn [negb]. unfold bind at 1. unfold requests_post.
  rewrite Hpost, Hs. cbn [Z.eqb Pos.eqb negb].
  unfold bind at 1. unfold lift at 1. unfold response_json. rewrite Hj.
  unfold bind at 1. unfold lift at 1. unfold getitem at 1. rewrite Ha.
  unfold bind at 1. unfold environ_set at 1. rewrite Hn.
  unfold bind at 1. unfold lift at 1. unfold getitem at 1. rewrite Hr.
  cbn [headers environ n_get n_post n_open trace].
  now rewrite <- app_assoc.
Qed.

Lemma missing_refresh_token_half_updates_witness :
  let out := refresh_access_token (builtins := Samples.decimal_builtins)
               MoreSamples.w_partial_token Samples.cfg0 Samples.st0 in
  fst out = Raise (KeyError "refresh_token") /\
  environ (snd out) = [("STRAVA_ACCESS_TOKEN", "new-access")] /\
  written_paths (trace (snd out)) = [].
Proof.
  cbv zeta.
  rewrite (missing_refresh_token_half_updates
             (builtins := Samples.decimal_builtins)
             MoreSamples.w_partial_token Samples.cfg0 Samples.st0
             _ [ ("access_token", VStr "new-access") ] "new-access"
             eq_refl eq_refl eq_refl eq_refl eq_refl eq_refl eq_refl).
  repeat split.
Defined.

(** ** Token exchanges during a call *)

Section ExchangesPerCall.

Context {builtins : Builtins}.
Variables (w : world) (cfg : config) (url : string)
          (params : option (list (string * Z))) (max_retries : Z).

Ltac destruct_matches :=
  repeat (cbv beta iota;
          match goal with
          | |- context [match ?x with _ => _ end] =>
              lazymatch x with
              | context [match _ with _ => _ end] => fail
              | _ => destruct x
              end
          end).

Lemma on_request_exception_posts (attempt : Z) (e : exn) (st : state) :
  n_post (snd (on_request_exception max_retries attempt e st)) = n_post st
  /\ headers (snd (on_request_exception max_retries attempt e st)) = headers st.
Proof.
  unfold on_request_exception, bind, raise, ret, time_sleep, log.
  destruct_matches; split; reflexivity.
Qed.

Lemma after_response_posts (attempt : Z) (r : response) (st : state) :
  let st' := snd (after_response w cfg max_retries attempt r st) in
  (n_post st <= n_post st' <= S (n_post st))%nat /\
  (attempt <> 0 \/ status_code r <> 401 -> n_post st' = n_post st).
Proof.
  unfold after_response.
  destruct (Z.eqb_spec (status_code r) 429) as [E429 | N429].
  { unfold bind, lift, ret, time_sleep, int_retry_after, log.
    destruct_matches; cbn [snd n_post]; split; try lia; reflexivity. }
  assert (Hauth : forall s : state,
            n_post (snd ((if status_code r =? 200 then ret (Return r)
                          else if attempt <? max_retries - 1
                               then do_ time_sleep (2 ^ attempt); ret NextAttempt
                               else do_ lift (raise_for_status r); ret NextAttempt) s))
            = n_post s).
  { intros s. unfold bind, lift, ret, time_sleep, raise_for_status, log.
    destruct_matches; reflexivity. }
  destruct (Z.eqb_spec (status_code r) 401) as [E401 | N401].
  - destruct (Z.eqb_spec attempt 0) as [E0 | N0].
    + unfold try_except, bind, set_authorization, ret, raise.
      destruct (refresh_counters w cfg st) as (_ & _ & Hp).
      destruct (refresh_access_token w cfg st) as [[tok | e] st1];
        cbn [snd n_post] in *; split; try lia; intros [H | H]; contradiction.
    + cbv zeta. rewrite Hauth. split; [ lia | reflexivity ].
  - cbv zeta. rewrite Hauth. split; [ lia | reflexivity ].
Qed.

Lemma attempt_once_posts (attempt : Z) (st : state) :
  let st' := snd (attempt_once w cfg url params max_retries attempt st) in
  (n_post st <= n_post st' <= S (n_post st))%nat /\
  (attempt <> 0 \/
   (forall r, http_get w (n_get st) (mkRequest url (headers st) params 30)
              = Responds r -> status_code r <> 401) ->
   n_post st' = n_post st).
Proof.
  destruct (http_get w (n_get st) (mkRequest url (headers st) params 30))
    as [r | kind] eqn:Hget.
  - rewrite (attempt_once_responds w cfg url params max_retries attempt st r Hget).
    unfold try_except.
    destruct (after_response_posts attempt r (sent st url params)) as [Hb Hsame].
    destruct (after_response w cfg max_retries attempt r (sent st url params))
      as [[fl | e] st1]; cbn [snd sent n_post] in *.
    + split; [ exact Hb | ].
      intros [H | H]; apply Hsame; [ now left | right; now apply H ].
    + destruct (is_RequestException e); cbn [snd].
      * rewrite (proj1 (on_request_exception_posts attempt e st1)).
        split; [ exact Hb | ].
        intros [H | H]; apply Hsame; [ now left | right; now apply H ].
      * split; [ exact Hb | ].
        intros [H | H]; apply Hsame; [ now left | right; now apply H ].
  - rewrite (attempt_once_fails w cfg url params max_retries attempt st kind Hget).
    cbv zeta.
    rewrite (proj1 (on_request_exception_posts attempt _ _)).
    cbn [sent n_post]. split; [ lia | reflexivity ].
Qed.

Lemma for_attempts_posts_later (attempts : list Z) (st : state) :
  Forall (fun a => a <> 0) attempts ->
  n_post (snd (for_attempts w cfg url params max_retries attempts st))
  = n_post st.
Proof.
  intros H. revert st. induction H as [ | a attempts Ha _ IH]; intros st.
  - reflexivity.
  - cbn [for_attempts]. unfold bind.
    destruct (attempt_once_posts a st) as [_ Hsame].
    specialize (Hsame (or_introl Ha)).
    destruct (attempt_once w cfg url params max_retries a st)
      as [[[ | r] | e] st1]; cbn [snd] in *; unfold ret; cbn [snd].
    + now rewrite IH.
    + exact Hsame.
    + exact Hsame.
Qed.

Lemma later_passes_nonzero (n : nat) :
  Forall (fun a => a <> 0) (map Z.of_nat (seq 1 n)).
Proof.
  apply Forall_forall. intros a Ha. apply in_map_iff in Ha as (i & <- & Hi).
  apply in_seq in Hi. lia.
Qed.

End ExchangesPerCall.

(** X12.  One call to [make_api_request] makes at most one token exchange,
    and none at all unless the very first reply is a 401: a 401 on a later
    pass never triggers a refresh. *)
Theorem at_most_one_exchange_per_call {builtins : Builtins}
  (w : world) (cfg : config) (url : string)
  (params : option (list (string * Z))) (max_retries : Z) (st : state) :
  let out := make_api_request w cfg url params max_retries st in
  (n_post st <= n_post (snd out) <= S (n_post st))%nat /\
  ((forall r, http_get w (n_get st) (mkRequest url (headers st) params 30)
              = Responds r -> status_code r <> 401) ->
   n_post (snd out) = n_post st).
Proof.
  intros out. unfold out, make_api_request.
  destruct (Z_lt_le_dec 0 max_retries) as [Hpos | Hle].
  - rewrite (range_pos _ Hpos). cbn [for_attempts]. unfold bind.
    destruct (attempt_once_posts w cfg url params max_retries 0 st) as [Hb Hsame].
    pose proof (for_attempts_posts_later w cfg url params max_retries _
                  (snd (attempt_once w cfg url params max_retries 0 st))
                  (later_passes_nonzero (Z.to_nat max_retries - 1))) as Hrest.
    destruct (attempt_once w cfg url params max_retries 0 st)
      as [[[ | r] | e] st1]; cbn [snd] in *; unfold ret; cbn [snd].
    + rewrite Hrest. split; [ exact Hb | ]. intros H. apply Hsame. now right.
    + split; [ exact Hb | ]. intros H. apply Hsame. now right.
    + split; [ exact Hb | ]. intros H. apply Hsame. now right.
  - unfold range. replace (Z.to_nat max_retries) with 0%nat by lia.
    cbn. split; [ lia | reflexivity ].
Qed.

Lemma at_most_one_exchange_per_call_witness :
  n_post (snd (make_api_request (builtins := Samples.decimal_builtins)
                 MoreSamples.w_three_failures Samples.cfg0 ACTIVITIES_URL None 3
                 Samples.st0))
  = 0%nat.
Proof.
  apply (proj2 (at_most_one_exchange_per_call (builtins := Samples.decimal_builtins)
                  MoreSamples.w_three_failures Samples.cfg0 ACTIVITIES_URL None 3
                  Samples.st0)).
  intros r H. inversion H. discriminate.
Defined.

Lemma attempt_once_refresh_raises {builtins : Builtins}
  (w : world) (cfg : config) (url : string)
  (params : option (list (string * Z))) (max_retries : Z) (st st1 : state)
  (r : response) (e : exn) :
  http_get w (n_get st) (mkRequest url (headers st) params 30) = Responds r ->
  status_code r = 401 ->
  refresh_access_token w cfg (sent st url params) = (Raise e, st1) ->
  attempt_once w cfg url params max_retries 0 st
  = if is_RequestException e
    then on_request_exception max_retries 0 e st1
    else (Raise e, st1).
Proof.
  intros Hget Hs Href.
  rewrite (attempt_once_responds w cfg url params max_retries 0 st r Hget).
  assert (E : after_response w cfg max_retries 0 r (sent st url params)
              = (Raise e, st1)).
  { unfold after_response, try_except, bind, raise. rewrite Hs.
    cbn [Z.eqb Pos.eqb]. rewrite Href. reflexivity. }
  unfold try_except. rewrite E. reflexivity.
Qed.

(** X13.  When the first reply is a 401 and the refresh fails, what happens
    next depends on the class of the failure.  An exception that is not a
    requests exception (the "Failed to refresh token" exception of a
    refused exchange, a [ValueError], [KeyError] or [OSError]) ends the
    call at once.  A requests exception raised inside the refresher (the
    token endpoint cannot be reached) is caught by the handler of the
    loop like a fault of the request itself: on the only pass it is
    wrapped in "API request failed", otherwise the call sleeps one second
    and goes on with pass 1, still with the old headers. *)
Theorem refresh_failure_on_first_pass {builtins : Builtins}
  (w : world) (cfg : config) (url : string)
  (params : option (list (string * Z))) (max_retries : Z) (st st1 : state)
  (r : response) (e : exn) :
  0 < max_retries ->
  http_get w (n_get st) (mkRequest url (headers st) params 30) = Responds r ->
  status_code r = 401 ->
  refresh_access_token w cfg (sent st url params) = (Raise e, st1) ->
  (is_RequestException e = false ->
   make_api_request w cfg url params max_retries st = (Raise e, st1)) /\
  (is_RequestException e = true -> max_retries = 1 ->
   make_api_request w cfg url params max_retries st
   = (Raise (ApiRequestFailed 1 e), st1)) /\
  (is_RequestException e = true -> 1 < max_retries ->
   make_api_request w cfg url params max_retries st
   = for_attempts w cfg url params max_retries
       (map Z.of_nat (seq 1 (Z.to_nat max_retries - 1)))
       (log (ESleep 1) st1)
   /\ headers (log (ESleep 1) st1) = headers st).
Proof.
  intros Hpos Hget Hs Href.
  pose proof (attempt_once_refresh_raises w cfg url params max_retries st st1 r e
                Hget Hs Href) as Hstep.
  unfold make_api_request. rewrite (range_pos _ Hpos).
  split; [ | split ].
  - intros Hne. rewrite Hne in Hstep. now apply for_attempts_raise.
  - intros He ->. rewrite He in Hstep. apply for_attempts_raise.
    rewrite Hstep. reflexivity.
  - intros He Hgt. rewrite He in Hstep. split.
    + apply for_attempts_next. rewrite Hstep.
      unfold on_request_exception, bind, ret.
      destruct (Z.eqb_spec 0 (max_retries - 1)); [ lia | ].
      rewrite time_sleep_ok by (unfold SLEEP_MAX; cbn; lia). reflexivity.
    + destruct (refresh_counters w cfg (sent st url params)) as [Hh _].
      rewrite Href in Hh. exact Hh.
Qed.

Lemma refresh_failure_on_first_pass_witness :
  fst (make_api_request (builtins := Samples.decimal_builtins)
         MoreSamples.w_refresh_refused Samples.cfg0 ACTIVITIES_URL None 3
         Samples.st0)
  = Raise (RefreshFailed 400 "invalid refresh token").
Proof.
  destruct (refresh_access_token (builtins := Samples.decimal_builtins)
              MoreSamples.w_refresh_refused Samples.cfg0
              (sent Samples.st0 ACTIVITIES_URL None)) as [res st1] eqn:E.
  assert (Hres : res = Raise (RefreshFailed 400 "invalid refresh token"))
    by (vm_compute in E; inversion E; reflexivity).
  subst res.
  rewrite (proj1 (refresh_failure_on_first_pass (builtins := Samples.decimal_builtins)
                    MoreSamples.w_refresh_refused Samples.cfg0 ACTIVITIES_URL None 3
                    Samples.st0 st1 (Samples.status_only 401) _
                    ltac:(lia) eq_refl eq_refl E) eq_refl).
  reflexivity.
Defined.

Lemma find_dict_set (d : list (string * string)) (k v : string) :
  find (fun kv => String.eqb (fst kv) k) (dict_set d k v) = Some (k, v).
Proof.
  induction d as [ | [k' v'] d IH]; cbn [dict_set].
  - cbn. now rewrite String.eqb_refl.
  - destruct (String.eqb k' k) eqn:E; cbn [find fst].
    + now rewrite String.eqb_refl.
    + rewrite E. exact IH.
Qed.

(** X14.  After a 401 on the first pass and a successful refresh, the
    retry carries the new token: its Authorization header is "Bearer "
    followed by the new access token, and when that retry is answered 200
    the call returns it, leaving the new header in the shared [headers]
    dict for the requests that follow. *)
Theorem refreshed_token_is_used {builtins : Builtins}
  (w : world) (cfg : config) (url : string)
  (params : option (list (string * Z))) (max_retries : Z) (st st1 : state)
  (r1 r2 : response) (tok : value) :
  1 < max_retries ->
  http_get w (n_get st) (mkRequest url (headers st) params 30) = Responds r1 ->
  status_code r1 = 401 ->
  refresh_access_token w cfg (sent st url params) = (Ok tok, st1) ->
  let bearer := ("Bearer " ++ py_str tok)%string in
  let st2 := snd (set_authorization bearer st1) in
  http_get w (n_get st2) (mkRequest url (headers st2) params 30) = Responds r2 ->
  status_code r2 = 200 ->
  make_api_request w cfg url params max_retries st = (Ok r2, sent st2 url params) /\
  headers (sent st2 url params) = dict_set (headers st) "Authorization" bearer /\
  authorization_of (mkRequest url (headers st2) params 30) = Some bearer.
Proof.
  intros Hgt H1 Hs1 Href bearer st2 H2 Hs2.
  assert (Hh : headers st2 = dict_set (headers st) "Authorization" bearer).
  { destruct (refresh_counters w cfg (sent st url params)) as [Hh _].
    rewrite Href in Hh. cbn [snd sent headers] in Hh.
    unfold st2, set_authorization. cbn [snd headers]. now rewrite Hh. }
  split; [ | split ].
  - unfold make_api_request, range.
    replace (Z.to_nat max_retries) with (S (S (Z.to_nat max_retries - 2))) by lia.
    cbn [seq map]. change (Z.of_nat 0) with 0. change (Z.of_nat 1) with 1.
    rewrite (for_attempts_next w cfg url params max_retries 0 _ st st2).
    + apply for_attempts_return. now apply attempt_once_200.
    + rewrite (attempt_once_responds w cfg url params max_retries 0 st r1 H1).
      unfold try_except.
      now rewrite (after_response_refresh w cfg max_retries r1 tok _ st1 Hs1 Href).
  - exact Hh.
  - unfold authorization_of. cbn [req_headers]. rewrite Hh, find_dict_set.
    reflexivity.
Qed.

Lemma refreshed_token_is_used_witness :
  let out := make_api_request (builtins := Samples.decimal_builtins)
               MoreSamples.w_refresh_then_page Samples.cfg0 ACTIVITIES_URL None 3
               Samples.st0 in
  fst out = Ok (Samples.page_of_records [Samples.run_activity]) /\
  headers (snd out) = [("Authorization", "Bearer new-access")].
Proof.
  destruct (refresh_access_token (builtins := Samples.decimal_builtins)
              MoreSamples.w_refresh_then_page Samples.cfg0
              (sent Samples.st0 ACTIVITIES_URL None)) as [res st1] eqn:E.
  assert (Hres : res = Ok (VStr "new-access") /\ n_get st1 = 1%nat
                 /\ headers st1 = [("Authorization", "Bearer old-access")])
    by (vm_compute in E; inversion E; repeat split).
  destruct Hres as (-> & Hn & Hh).
  destruct (refreshed_token_is_used (builtins := Samples.decimal_builtins)
              MoreSamples.w_refresh_then_page Samples.cfg0 ACTIVITIES_URL None 3
              Samples.st0 st1 (Samples.status_only 401)
              (Samples.page_of_records [Samples.run_activity]) (VStr "new-access")
              ltac:(lia) eq_refl eq_refl E) as (Hout & Hhead & _).
  - cbn [set_authorization snd n_get headers]. rewrite Hn. reflexivity.
  - reflexivity.
  - cbv zeta. rewrite Hout. cbn [fst snd]. split; [ reflexivity | exact Hhead ].
Defined.

(** ** The pager and the run, continued *)

Section PagerWalk.

Context {builtins : Builtins}.
Variables (w : world) (cfg : config) (after : Z).

(** Any body that [not data] accepts ends the loop. *)
Lemma page_step_falsy (page : Z) (acc : list row) (st : state) (r : response)
  (data : value) :
  http_get w (n_get st)
    (mkRequest ACTIVITIES_URL (headers st) (Some (page_params after page)) 30)
  = Responds r ->
  status_code r = 200 ->
  json_body r = Some data -> truthy data = false ->
  page_step w cfg after page acc st
  = (Ok None, sent st ACTIVITIES_URL (Some (page_params after page))).
Proof.
  intros Hget Hs Hj Hf. unfold page_step. cbv zeta. unfold bind at 1.
  rewrite (make_api_request_200 w cfg ACTIVITIES_URL (Some (page_params after page))
             st r Hget Hs).
  unfold bind, lift, response_json. rewrite Hj, Hf. reflexivity.
Qed.

Lemma page_of_page_params (hs : list (string * string)) (page : Z) :
  page_of (mkRequest ACTIVITIES_URL hs (Some (page_params after page)) 30)
  = Some page.
Proof. reflexivity. Qed.

Lemma fetch_pages_walk (pages : list (list value)) :
  forall (p : Z) (acc rows : list row) (st : state) (fuel : nat)
         (r_end : response) (data : value),
    (forall i, (i < List.length pages)%nat ->
       exists r,
         http_get w (n_get st + i)
           (mkRequest ACTIVITIES_URL (headers st)
              (Some (page_params after (p + Z.of_nat i))) 30) = Responds r /\
         status_code r = 200 /\
         json_body r = Some (VList (nth i pages [])) /\
         nth i pages [] <> []) ->
    http_get w (n_get st + List.length pages)
      (mkRequest ACTIVITIES_URL (headers st)
         (Some (page_params after (p + Z.of_nat (List.length pages)))) 30)
    = Responds r_end ->
    status_code r_end = 200 ->
    json_body r_end = Some data -> truthy data = false ->
    append_rows (List.concat pages) acc = Ok rows ->
    (List.length pages < fuel)%nat ->
    exists st',
      fetch_pages w cfg after fuel p acc st = Some (Ok rows, st') /\
      headers st' = headers st /\
      n_get st' = (n_get st + List.length pages + 1)%nat /\
      sleeps (trace st') = sleeps (trace st) ++ repeat 1 (List.length pages) /\
      map page_of (gets (trace st'))
      = map page_of (gets (trace st))
          ++ map (fun i => Some (p + Z.of_nat i)) (seq 0 (S (List.length pages))).
Proof.
  induction pages as [ | l pages IH];
    intros p acc rows st fuel r_end data Hpages Hend Hs Hj Hf Hrows Hfuel.
  - cbn [List.length List.concat append_rows] in *.
    inversion Hrows; subst rows; clear Hrows.
    destruct fuel as [ | fuel]; [ lia | ].
    rewrite Nat.add_0_r, Z.add_0_r in Hend.
    cbn [fetch_pages].
    rewrite (page_step_falsy p acc st r_end data Hend Hs Hj Hf).
    eexists. split; [ reflexivity | ].
    cbn [sent headers n_get trace seq map]. unfold sleeps, gets.
    rewrite !flat_map_app. cbn [flat_map app]. rewrite !app_nil_r, map_app.
    cbn [map]. rewrite page_of_page_params, Z.add_0_r.
    repeat split; lia.
  - cbn [List.length List.concat] in *.
    rewrite append_rows_app in Hrows.
    destruct (append_rows l acc) as [acc' | e] eqn:Eacc; cbn [rbind] in Hrows;
      [ | discriminate Hrows ].
    destruct fuel as [ | fuel]; [ lia | ].
    destruct (Hpages 0%nat ltac:(lia)) as (r & Hget & Hsr & Hjr & Hne).
    rewrite Nat.add_0_r, Z.add_0_r in Hget. cbn [nth] in Hjr, Hne.
    cbn [fetch_pages].
    rewrite (page_step_records w cfg after p acc acc' st r l Hget Hsr Hjr Hne Eacc).
    set (st1 := log (ESleep 1)
                  (sent st ACTIVITIES_URL (Some (page_params after p)))).
    destruct (IH (p + 1) acc' rows st1 fuel r_end data) as (st' & Hrun & Hh & Hn & Hsl & Hg);
      try assumption; try lia.
    + intros i Hi. destruct (Hpages (S i) ltac:(lia)) as (r' & Hget' & H').
      exists r'. cbn [st1 log sent n_get headers].
      replace (S (n_get st) + i)%nat with (n_get st + S i)%nat by lia.
      replace (p + 1 + Z.of_nat i) with (p + Z.of_nat (S i)) by lia.
      split; [ exact Hget' | exact H' ].
    + cbn [st1 log sent n_get headers].
      replace (S (n_get st) + List.length pages)%nat
        with (n_get st + S (List.length pages))%nat by lia.
      replace (p + 1 + Z.of_nat (List.length pages))
        with (p + Z.of_nat (S (List.length pages))) by lia.
      exact Hend.
    + exists st'. split; [ exact Hrun | ].
      rewrite Hh, Hn, Hsl, Hg.
      cbn [st1 log sent headers n_get trace]. unfold sleeps, gets.
      rewrite !flat_map_app. cbn [flat_map app]. rewrite !app_nil_r.
      rewrite !map_app. cbn [map]. rewrite page_of_page_params.
      rewrite <- !app_assoc. cbn [app repeat].
      split; [ reflexivity | ]. split; [ lia | ]. split; [ reflexivity | ].
      f_equal.
      replace (seq 0 (S (S (List.length pages))))
        with (0%nat :: map S (seq 0 (S (List.length pages))))
        by (rewrite seq_shift; reflexivity).
      cbn [map]. rewrite Z.add_0_r, map_map. f_equal.
      apply map_ext. intros i. f_equal. lia.
Qed.

End PagerWalk.

(** X15.  For every number of pages: when the server serves [k] non-empty
    pages of acceptable records and then an empty body (an empty list, or
    anything else that is false in Python, such as [{}] or [null]), the
    pager ends normally with the rows of all [k] pages in order, having
    asked for pages 1, 2, ..., k+1 in that order and slept one second
    after each of the [k] non-empty pages. *)
Theorem pager_walks_all_pages {builtins : Builtins}
  (w : world) (cfg : config) (after : Z) (st : state) (fuel : nat)
  (pages : list (list value)) (rows : list row)
  (r_end : response) (data : value) :
  let k := List.length pages in
  let req page := mkRequest ACTIVITIES_URL (headers st)
                    (Some (page_params after page)) 30 in
  (forall i, (i < k)%nat ->
     exists r,
       http_get w (n_get st + i) (req (1 + Z.of_nat i)) = Responds r /\
       status_code r = 200 /\
       json_body r = Some (VList (nth i pages [])) /\
       nth i pages [] <> []) ->
  http_get w (n_get st + k) (req (1 + Z.of_nat k)) = Responds r_end ->
  status_code r_end = 200 ->
  json_body r_end = Some data -> truthy data = false ->
  append_rows (List.concat pages) [] = Ok rows ->
  (k < fuel)%nat ->
  exists st',
    fetch_pages w cfg after fuel 1 [] st = Some (Ok rows, st') /\
    Forall2 (fun a r => normalize a = Ok r) (List.concat pages) rows /\
    sleeps (trace st') = sleeps (trace st) ++ repeat 1 k /\
    map page_of (gets (trace st'))
    = map page_of (gets (trace st))
        ++ map (fun i => Some (1 + Z.of_nat i)) (seq 0 (S k)).
Proof.
  intros k req Hpages Hend Hs Hj Hf Hrows Hfuel.
  destruct (fetch_pages_walk w cfg after pages 1 [] rows st fuel r_end data
              Hpages Hend Hs Hj Hf Hrows Hfuel) as (st' & Hrun & _ & _ & Hsl & Hg).
  exists st'. split; [ exact Hrun | ]. split; [ | split; assumption ].
  destruct (append_rows_Ok _ _ _ Hrows) as (new & -> & HF). exact HF.
Qed.

Lemma pager_walks_all_pages_witness :
  exists rows st',
    fetch_pages (builtins := Samples.decimal_builtins) Samples.w_pages
      Samples.cfg0 1700000000 3 1 [] Samples.st0 = Some (Ok rows, st')
    /\ List.length rows = 3%nat
    /\ sleeps (trace st') = [1; 1]
    /\ map page_of (gets (trace st')) = [Some 1; Some 2; Some 3].
Proof.
  destruct (append_rows (List.concat [Samples.two_pages 1; Samples.two_pages 2]) [])
    as [rows | e] eqn:E; [ | vm_compute in E; discriminate E ].
  destruct (pager_walks_all_pages (builtins := Samples.decimal_builtins)
              Samples.w_pages Samples.cfg0 1700000000 Samples.st0 3
              [Samples.two_pages 1; Samples.two_pages 2] rows
              (Samples.page_of_records []) (VList []))
    as (st' & Hrun & HF & Hsl & Hg); try reflexivity; try assumption;
    try (cbn; lia).
  - intros i Hi. destruct i as [ | [ | i]]; [ | | cbn in Hi; lia ].
    + exists (Samples.page_of_records (Samples.two_pages 1)).
      repeat split. discriminate.
    + exists (Samples.page_of_records (Samples.two_pages 2)).
      repeat split. discriminate.
  - exists rows, st'. split; [ exact Hrun | ]. split; [ | split; assumption ].
    apply Forall2_length in HF. rewrite <- HF. reflexivity.
Defined.

(** X16.  An empty collection is not an error and produces no file: when
    the first page comes back at once with a body that is false in Python,
    [main] returns [None] after that single request, without sleeping and
    without writing either output file. *)
Theorem empty_collection_writes_nothing
  {builtins : Builtins} {pandas : Pandas}
  (w : world) (cfg : config) (after : Z) (fuel : nat) (st : state)
  (r : response) (data : value) :
  let st0 := initial_headers cfg st in
  let req := mkRequest ACTIVITIES_URL (headers st0)
               (Some (page_params after 1)) 30 in
  is_set (ACCESS_TOKEN cfg) = true ->
  (1 <= fuel)%nat ->
  http_get w (n_get st) req = Responds r ->
  status_code r = 200 ->
  json_body r = Some data -> truthy data = false ->
  main w cfg after fuel st
  = Some (Ok None,
          mkState (headers st0) (environ st) (S (n_get st)) (n_post st)
            (n_open st) (trace st ++ [EGet req])).
Proof.
  intros st0 req Hcfg Hfuel Hget Hs Hj Hf. unfold main. rewrite Hcfg.
  cbn [negb]. destruct fuel as [ | fuel]; [ lia | ].
  cbn [fetch_pages].
  rewrite (page_step_falsy w cfg after 1 [] (initial_headers cfg st) r data
             Hget Hs Hj Hf).
  reflexivity.
Qed.

Lemma empty_collection_writes_nothing_witness :
  exists st',
    main (builtins := Samples.decimal_builtins) (pandas := Samples.plain_pandas)
      MoreSamples.w_no_activities Samples.cfg0 1700000000 1 Samples.st0
    = Some (Ok None, st')
    /\ written_paths (trace st') = [] /\ sleeps (trace st') = [].
Proof.
  eexists. split.
  - apply (empty_collection_writes_nothing
             (builtins := Samples.decimal_builtins)
             (pandas := Samples.plain_pandas)
             MoreSamples.w_no_activities Samples.cfg0 1700000000 1 Samples.st0
             (Samples.page_of_records []) (VList []));
      try reflexivity; try lia.
  - split; reflexivity.
Defined.

Section ExportStage.

Context {builtins : Builtins} {pandas : Pandas}.
Variables (w : world) (cfg : config) (after : Z) (fuel : nat).

Lemma main_after_fetch (st st1 : state) (rows : list row) :
  is_set (ACCESS_TOKEN cfg) = true ->
  fetch_pages w cfg after fuel 1 [] (initial_headers cfg st)
  = Some (Ok rows, st1) ->
  main w cfg after fuel st
  = Some (match export w rows st1 with
          | (Raise e, st') => (Ok (Some 1), st')
          | (Ok res, st') => (Ok res, st')
          end).
Proof.
  intros Hcfg Hfetch. unfold main. rewrite Hcfg, Hfetch. cbn [negb].
  now destruct (export w rows st1) as [[res | e] st'].
Qed.

Lemma to_csv_written (df : frame) (path content : string) (st : state) :
  pd_csv df = Ok content ->
  file_write_ok w (n_open st) path = true ->
  to_csv w df path st
  = (Ok tt, mkState (headers st) (environ st) (n_get st) (n_post st)
              (S (n_open st)) (trace st ++ [EWrite path content])).
Proof.
  intros Hc Hw. unfold to_csv, write_file. now rewrite Hc, Hw.
Qed.

End ExportStage.

(** X17.  When the fetch has completed with at least one row, the frame,
    the summary and their texts can be built and the disk takes both
    writes, the run writes the activities file first and the summary file
    second, and nothing else.  It returns [None], or 1 if the closing
    report raises, in which case both files are in place all the same. *)
Theorem export_writes_activities_then_summary
  {builtins : Builtins} {pandas : Pandas}
  (w : world) (cfg : config) (after : Z) (fuel : nat) (st st1 : state)
  (rows : list row) (df0 df sdf : frame) (c1 c2 : string) :
  is_set (ACCESS_TOKEN cfg) = true ->
  fetch_pages w cfg after fuel 1 [] (initial_headers cfg st)
  = Some (Ok rows, st1) ->
  rows <> [] ->
  pd_DataFrame rows = Ok df0 -> pd_fillna df0 "" = Ok df ->
  pd_csv df = Ok c1 -> pd_summary df = Ok sdf -> pd_csv sdf = Ok c2 ->
  file_write_ok w (n_open st1) OUTPUT_FILE = true ->
  file_write_ok w (S (n_open st1)) SUMMARY_FILE = true ->
  main w cfg after fuel st
  = Some (Ok (match pd_report df sdf with Ok _ => None | Raise _ => Some 1 end),
          mkState (headers st1) (environ st1) (n_get st1) (n_post st1)
            (S (S (n_open st1)))
            (trace st1 ++ [EWrite OUTPUT_FILE c1; EWrite SUMMARY_FILE c2])).
Proof.
  intros Hcfg Hfetch Hne Hdf0 Hdf Hc1 Hsdf Hc2 Hw1 Hw2.
  rewrite (main_after_fetch w cfg after fuel st st1 rows Hcfg Hfetch).
  destruct rows as [ | row rows]; [ contradiction | ].
  unfold export. unfold bind at 1. unfold lift at 1. rewrite Hdf0.
  unfold bind at 1. unfold lift at 1. rewrite Hdf.
  unfold bind at 1. rewrite (to_csv_written w df OUTPUT_FILE c1 st1 Hc1 Hw1).
  unfold bind at 1. unfold lift at 1. rewrite Hsdf.
  unfold bind at 1.
  rewrite (to_csv_written w sdf SUMMARY_FILE c2
             (mkState (headers st1) (environ st1) (n_get st1) (n_post st1)
                (S (n_open st1)) (trace st1 ++ [EWrite OUTPUT_FILE c1]))
             Hc2 Hw2).
  unfold bind, lift, ret. cbn [headers environ n_get n_post n_open trace].
  rewrite <- app_assoc. cbn [app].
  destruct (pd_report df sdf) as [[] | e]; reflexivity.
Qed.

Lemma export_writes_activities_then_summary_witness :
  exists st',
    main (builtins := Samples.decimal_builtins) (pandas := Samples.plain_pandas)
      Samples.w_pages Samples.cfg0 1700000000 3 Samples.st0
    = Some (Ok None, st')
    /\ written_paths (trace st') = [OUTPUT_FILE; SUMMARY_FILE].
Proof.
  destruct (fetch_pages (builtins := Samples.decimal_builtins) Samples.w_pages
              Samples.cfg0 1700000000 3 1 []
              (initial_headers Samples.cfg0 Samples.st0))
    as [[[rows | e] st1] | ] eqn:E;
    try (vm_compute in E; discriminate E).
  assert (Hne : rows <> [])
    by (vm_compute in E; inversion E; discriminate).
  assert (Htr : written_paths (trace st1) = [])
    by (vm_compute in E; inversion E; reflexivity).
  eexists. split.
  - apply (export_writes_activities_then_summary
             (builtins := Samples.decimal_builtins)
             (pandas := Samples.plain_pandas)
             Samples.w_pages Samples.cfg0 1700000000 3 Samples.st0 st1 rows
             rows rows (firstn 1 rows) _ _ eq_refl E Hne
             eq_refl eq_refl eq_refl eq_refl eq_refl eq_refl eq_refl).
  - cbn [trace]. unfold written_paths in *. rewrite flat_map_app, Htr.
    reflexivity.
Defined.

(** X18.  A failure after the first write leaves a partial result behind:
    when the activities file has been written and the summary step of
    pandas raises, or the write of the summary file fails, [main] returns
    1 although the activities file is already in place. *)
Theorem late_failure_keeps_activities_file
  {builtins : Builtins} {pandas : Pandas}
  (w : world) (cfg : config) (after : Z) (fuel : nat) (st st1 : state)
  (rows : list row) (df0 df : frame) (c1 : string) :
  is_set (ACCESS_TOKEN cfg) = true ->
  fetch_pages w cfg after fuel 1 [] (initial_headers cfg st)
  = Some (Ok rows, st1) ->
  rows <> [] ->
  pd_DataFrame rows = Ok df0 -> pd_fillna df0 "" = Ok df ->
  pd_csv df = Ok c1 ->
  file_write_ok w (n_open st1) OUTPUT_FILE = true ->
  (forall e, pd_summary df = Raise e ->
     main w cfg after fuel st
     = Some (Ok (Some 1),
             mkState (headers st1) (environ st1) (n_get st1) (n_post st1)
               (S (n_open st1)) (trace st1 ++ [EWrite OUTPUT_FILE c1]))) /\
  (forall sdf c2,
     pd_summary df = Ok sdf -> pd_csv sdf = Ok c2 ->
     file_write_ok w (S (n_open st1)) SUMMARY_FILE = false ->
     main w cfg after fuel st
     = Some (Ok (Some 1),
             mkState (headers st1) (environ st1) (n_get st1) (n_post st1)
               (S (S (n_open st1)))
               (trace st1 ++ [EWrite OUTPUT_FILE c1; EWriteFailed SUMMARY_FILE]))).
Proof.
  intros Hcfg Hfetch Hne Hdf0 Hdf Hc1 Hw1.
  destruct rows as [ | row rows]; [ contradiction | ].
  split.
  - intros e He.
    rewrite (main_after_fetch w cfg after fuel st st1 _ Hcfg Hfetch).
    unfold export. unfold bind at 1. unfold lift at 1. rewrite Hdf0.
    unfold bind at 1. unfold lift at 1. rewrite Hdf.
    unfold bind at 1. rewrite (to_csv_written w df OUTPUT_FILE c1 st1 Hc1 Hw1).
    unfold bind at 1. unfold lift at 1. rewrite He. reflexivity.
  - intros sdf c2 Hsdf Hc2 Hw2.
    rewrite (main_after_fetch w cfg after fuel st st1 _ Hcfg Hfetch).
    unfold export. unfold bind at 1. unfold lift at 1. rewrite Hdf0.
    unfold bind at 1. unfold lift at 1. rewrite Hdf.
    unfold bind at 1. rewrite (to_csv_written w df OUTPUT_FILE c1 st1 Hc1 Hw1).
    unfold bind at 1. unfold lift at 1. rewrite Hsdf.
    unfold bind at 1. unfold to_csv, write_file. rewrite Hc2.
    cbn [n_open headers environ n_get n_post trace]. rewrite Hw2.
    rewrite <- app_assoc. reflexivity.
Qed.

Lemma late_failure_keeps_activities_file_witness :
  exists st',
    main (builtins := Samples.decimal_builtins)
      (pandas := MoreSamples.failing_summary)
      Samples.w_pages Samples.cfg0 1700000000 3 Samples.st0
    = Some (Ok (Some 1), st')
    /\ written_paths (trace st') = [OUTPUT_FILE].
Proof.
  destruct (fetch_pages (builtins := Samples.decimal_builtins) Samples.w_pages
              Samples.cfg0 1700000000 3 1 []
              (initial_headers Samples.cfg0 Samples.st0))
    as [[[rows | e] st1] | ] eqn:E;
    try (vm_compute in E; discriminate E).
  assert (Hne : rows <> [])
    by (vm_compute in E; inversion E; discriminate).
  assert (Htr : written_paths (trace st1) = [])
    by (vm_compute in E; inversion E; reflexivity).
  eexists. split.
  - apply (proj1 (late_failure_keeps_activities_file
                    (builtins := Samples.decimal_builtins)
                    (pandas := MoreSamples.failing_summary)
                    Samples.w_pages Samples.cfg0 1700000000 3 Samples.st0 st1
                    rows rows rows "csv" eq_refl E Hne
                    eq_refl eq_refl eq_refl eq_refl)
             (KeyError "sport_type") eq_refl).
  - cbn [trace]. unfold written_paths in *. rewrite flat_map_app, Htr.
    reflexivity.
Defined.



(** * The playlist script *)

Module SpotifyFacts.
Import Spotify.

Lemma firstn_plus {A} (a b : nat) (l : list A) :
  firstn (a + b) l = firstn a l ++ firstn b (skipn a l).
Proof.
  revert l. induction a as [ | a IH]; intros l.
  - reflexivity.
  - destruct l as [ | x l]; cbn [Nat.add firstn skipn app].
    + now rewrite firstn_nil.
    + now rewrite IH.
Qed.

Lemma slice_batch {A} (l : list A) (i : nat) :
  slice l i (i + batch_size) = firstn batch_size (skipn i l).
Proof. unfold slice. f_equal. lia. Qed.

(** The first [k] batches make up the first [k * 100] items. *)
Lemma concat_batches {A} (l : list A) (k : nat) :
  List.concat (map (fun i => slice l i (i + batch_size))
                 (map (fun j => j * batch_size)%nat (seq 0 k)))
  = firstn (k * batch_size) l.
Proof.
  induction k as [ | k IH].
  - reflexivity.
  - rewrite seq_S, !map_app, concat_app, IH. cbn [map List.concat Nat.add].
    rewrite app_nil_r, slice_batch.
    replace (S k * batch_size)%nat with (k * batch_size + batch_size)%nat by lia.
    now rewrite firstn_plus.
Qed.

Lemma batch_count_covers (n : nat) :
  (n <= (n + batch_size - 1) / batch_size * batch_size)%nat.
Proof.
  unfold batch_size.
  pose proof (Nat.div_mod_eq (n + 100 - 1) 100) as H.
  pose proof (Nat.mod_upper_bound (n + 100 - 1) 100 ltac:(lia)) as Hm.
  lia.
Qed.

Lemma batch_count_tight (n j : nat) :
  (j < (n + batch_size - 1) / batch_size)%nat -> (j * batch_size < n)%nat.
Proof.
  unfold batch_size. intros H.
  pose proof (Nat.div_mod_eq (n + 100 - 1) 100) as Hd.
  pose proof (Nat.mod_upper_bound (n + 100 - 1) 100 ltac:(lia)) as Hm.
  nia.
Qed.

Section Batches.

Variables (sp : client) (playlist_id : value) (track_uris : list value).

Lemma add_batches_all_ok (starts : list nat) :
  forall calls,
    (forall n items,
        sp_playlist_add_items sp (List.length calls + n) playlist_id items = true) ->
    add_batches sp playlist_id track_uris starts calls
    = (true,
       calls ++ map (fun i => AddItems playlist_id
                                (slice track_uris i (i + batch_size)) true) starts).
Proof.
  induction starts as [ | i starts IH]; intros calls Hok; cbn [add_batches map].
  - now rewrite app_nil_r.
  - pose proof (Hok 0%nat) as H0. rewrite Nat.add_0_r in H0. rewrite H0.
    rewrite IH.
    + now rewrite <- app_assoc.
    + intros n items. rewrite length_app. cbn [List.length].
      replace (List.length calls + 1 + n)%nat with (List.length calls + S n)%nat by lia.
      apply Hok.
Qed.

Lemma add_batches_fails_at (pre : list nat) (i : nat) (post : list nat) :
  forall calls,
    (forall n items, (n < List.length pre)%nat ->
        sp_playlist_add_items sp (List.length calls + n) playlist_id items = true) ->
    (forall items,
        sp_playlist_add_items sp (List.length calls + List.length pre)
          playlist_id items = false) ->
    add_batches sp playlist_id track_uris (pre ++ i :: post) calls
    = (false,
       calls
         ++ map (fun i => AddItems playlist_id
                            (slice track_uris i (i + batch_size)) true) pre
         ++ [AddItems playlist_id (slice track_uris i (i + batch_size)) false]).
Proof.
  induction pre as [ | p pre IH]; intros calls Hok Hfail;
    cbn [app add_batches map List.length] in *.
  - rewrite Nat.add_0_r in Hfail. now rewrite Hfail.
  - pose proof (Hok 0%nat) as H0. rewrite Nat.add_0_r in H0.
    rewrite H0 by lia. rewrite IH.
    + now rewrite <- app_assoc.
    + intros n items Hn. rewrite length_app. cbn [List.length].
      replace (List.length calls + 1 + n)%nat with (List.length calls + S n)%nat by lia.
      apply Hok. lia.
    + intros items. rewrite length_app. cbn [List.length].
      replace (List.length calls + 1 + List.length pre)%nat
        with (List.length calls + S (List.length pre))%nat by lia.
      apply Hfail.
Qed.

Lemma batches_of_added (f : nat -> list value) (starts : list nat) :
  batches_of (map (fun i => AddItems playlist_id (f i) true) starts)
  = map f starts
  /\ added_of (map (fun i => AddItems playlist_id (f i) true) starts)
     = map f starts.
Proof.
  induction starts as [ | i starts [IH1 IH2]]; cbn [map batches_of added_of flat_map app].
  - split; reflexivity.
  - unfold batches_of, added_of in *. now rewrite IH1, IH2.
Qed.

End Batches.

(** X20.  [add_tracks_to_playlist] sends the tracks in consecutive batches
    of at most 100.  With no track it returns [False] without calling the
    API.  Otherwise, when every call returns, it returns [True] after
    ceil(n / 100) calls whose batches, put end to end in the order sent,
    are exactly the [n] tracks given; no batch is empty and none has more
    than 100 items. *)
Theorem add_tracks_batches (sp : client) (playlist_id : value)
  (track_uris : list value) (verbose : bool) (calls : list call) :
  add_tracks_to_playlist sp playlist_id [] verbose calls = (false, calls) /\
  (track_uris <> [] ->
   (forall n items,
       sp_playlist_add_items sp (List.length calls + n) playlist_id items = true) ->
   exists new,
     add_tracks_to_playlist sp playlist_id track_uris verbose calls
     = (true, calls ++ new) /\
     List.concat (batches_of new) = track_uris /\
     added_of new = batches_of new /\
     Forall (fun b => 1 <= List.length b <= 100)%nat (batches_of new) /\
     List.length new = ((List.length track_uris + 99) / 100)%nat).
Proof.
  split; [ reflexivity | ].
  intros Hne Hok. unfold add_tracks_to_playlist.
  destruct track_uris as [ | u us] eqn:El; [ contradiction | ].
  rewrite <- El in *. clear Hne.
  rewrite (add_batches_all_ok sp playlist_id track_uris _ calls Hok).
  eexists. split; [ reflexivity | ].
  destruct (batches_of_added playlist_id
              (fun i => slice track_uris i (i + batch_size))
              (range_step (List.length track_uris) batch_size)) as [Hb Ha].
  rewrite Hb, Ha. unfold range_step.
  split; [ | split; [ reflexivity | split ] ].
  - rewrite concat_batches. apply firstn_all2. apply batch_count_covers.
  - apply Forall_forall. intros b Hb'.
    apply in_map_iff in Hb' as (i & <- & Hi).
    apply in_map_iff in Hi as (j & <- & Hj). apply in_seq in Hj.
    rewrite slice_batch, length_firstn, length_skipn.
    pose proof (batch_count_tight (List.length track_uris) j ltac:(lia)) as Ht.
    unfold batch_size in *. lia.
  - rewrite !length_map, length_seq. unfold batch_size. f_equal. lia.
Qed.

Lemma add_tracks_batches_witness :
  exists new,
    add_tracks_to_playlist (mkClient (fun _ _ => None) (fun _ _ _ => true))
      (VStr "playlist") (uris 250) false [] = (true, new) /\
    map (@List.length value) (batches_of new) = [100; 100; 50]%nat.
Proof.
  destruct (proj2 (add_tracks_batches (mkClient (fun _ _ => None) (fun _ _ _ => true))
                     (VStr "playlist") (uris 250) false []))
    as (new & Hrun & Hcat & _ & _ & _).
  - discriminate.
  - reflexivity.
  - exists new. split; [ exact Hrun | ].
    vm_compute in Hrun. inversion Hrun. reflexivity.
Defined.

(** X21.  A failing batch stops the upload and is not undone: when the
    first [j] calls return and call [j] raises, the function returns
    [False] right after that call; the [j] batches already accepted, the
    first [100 * j] tracks, stay in the playlist and no later batch is
    sent. *)
Theorem add_tracks_stops_at_failure (sp : client) (playlist_id : value)
  (track_uris : list value) (verbose : bool) (calls : list call) (j : nat) :
  (j < (List.length track_uris + 99) / 100)%nat ->
  (forall n items, (n < j)%nat ->
      sp_playlist_add_items sp (List.length calls + n) playlist_id items = true) ->
  (forall items,
      sp_playlist_add_items sp (List.length calls + j) playlist_id items = false) ->
  exists new,
    add_tracks_to_playlist sp playlist_id track_uris verbose calls
    = (false, calls ++ new) /\
    List.length (batches_of new) = S j /\
    List.concat (added_of new) = firstn (100 * j) track_uris.
Proof.
  intros Hj Hok Hfail. unfold add_tracks_to_playlist.
  destruct track_uris as [ | u us] eqn:El; [ cbn in Hj; lia | ].
  rewrite <- El in *.
  unfold range_step.
  replace ((List.length track_uris + batch_size - 1) / batch_size)%nat
    with (j + S ((List.length track_uris + 99) / 100 - j - 1))%nat
    by (unfold batch_size;
        replace (List.length track_uris + 100 - 1)%nat
          with (List.length track_uris + 99)%nat by lia; lia).
  rewrite seq_app, map_app. cbn [seq map Nat.add].
  rewrite (add_batches_fails_at sp playlist_id track_uris).
  - eexists. split; [ reflexivity | ].
    unfold batches_of, added_of. rewrite !flat_map_app.
    destruct (batches_of_added playlist_id
                (fun i => slice track_uris i (i + batch_size))
                (map (fun k => (k * batch_size)%nat) (seq 0 j))) as [Hb Ha].
    unfold batches_of, added_of in Hb, Ha. rewrite Hb, Ha.
    cbn [flat_map app]. rewrite app_nil_r.
    split.
    + rewrite length_app, !length_map, length_seq. cbn. lia.
    + rewrite concat_batches. f_equal. unfold batch_size. lia.
  - intros n items Hn. rewrite length_map, length_seq in Hn. now apply Hok.
  - intros items. rewrite length_map, length_seq. apply Hfail.
Qed.

Lemma add_tracks_stops_at_failure_witness :
  exists new,
    add_tracks_to_playlist sample_client (VStr "playlist") (uris 450) false []
    = (false, new) /\
    List.length (batches_of new) = 3%nat /\
    List.concat (added_of new) = firstn 200 (uris 450).
Proof.
  destruct (add_tracks_stops_at_failure sample_client (VStr "playlist")
              (uris 450) false [] 2)
    as (new & Hrun & Hlen & Hadded).
  - vm_compute. lia.
  - intros n items Hn. cbn. destruct n as [ | [ | n]]; [ reflexivity | reflexivity | lia ].
  - reflexivity.
  - exists new. repeat split; assumption.
Defined.

Section Search.

Variable sp : client.

Lemma search_loop_counts (songs : list string) :
  forall track_uris not_found calls,
    let '(track_uris', not_found', calls') :=
      search_loop sp songs track_uris not_found calls in
    (List.length track_uris' + List.length not_found'
     = List.length track_uris + List.length not_found + List.length songs)%nat /\
    calls' = calls ++ map Search songs.
Proof.
  induction songs as [ | song songs IH]; intros track_uris not_found calls;
    cbn [search_loop map List.length].
  - rewrite app_nil_r. split; [ lia | reflexivity ].
  - destruct (obind (sp_search sp (List.length calls) song) first_track)
      as [[uri | ] | ].
    + specialize (IH (track_uris ++ [uri]) not_found (calls ++ [Search song])).
      destruct (search_loop sp songs (track_uris ++ [uri]) not_found
                  (calls ++ [Search song])) as [[t n] c].
      destruct IH as [IH1 IH2]. rewrite length_app in IH1. cbn in IH1.
      rewrite IH2, <- app_assoc. split; [ lia | reflexivity ].
    + specialize (IH track_uris (not_found ++ [song]) (calls ++ [Search song])).
      destruct (search_loop sp songs track_uris (not_found ++ [song])
                  (calls ++ [Search song])) as [[t n] c].
      destruct IH as [IH1 IH2]. rewrite length_app in IH1. cbn in IH1.
      rewrite IH2, <- app_assoc. split; [ lia | reflexivity ].
    + specialize (IH track_uris (not_found ++ [song]) (calls ++ [Search song])).
      destruct (search_loop sp songs track_uris (not_found ++ [song])
                  (calls ++ [Search song])) as [[t n] c].
      destruct IH as [IH1 IH2]. rewrite length_app in IH1. cbn in IH1.
      rewrite IH2, <- app_assoc. split; [ lia | reflexivity ].
Qed.

End Search.

(** X22.  [search_tracks] searches once for every song, in the order
    given, whether or not earlier searches failed, and accounts for every
    song exactly once: the number of URIs it returns plus the number of
    songs it reports as not found is the number of songs. *)
Theorem search_accounts_for_every_song (sp : client) (songs : list string)
  (verbose : bool) (calls : list call) :
  snd (search_tracks sp songs verbose calls) = calls ++ map Search songs /\
  (List.length (fst (search_tracks sp songs verbose calls))
   + List.length (reported_not_found sp songs calls)
   = List.length songs)%nat.
Proof.
  unfold search_tracks, reported_not_found.
  pose proof (search_loop_counts sp songs [] [] calls) as H.
  destruct (search_loop sp songs [] [] calls) as [[t n] c].
  destruct H as [H1 H2]. cbn [fst snd List.length] in *. split; [ exact H2 | lia ].
Qed.

(** X23.  A hit is kept only if its name and first artist can be read: the
    URI is appended after those lookups, so a song whose first track has a
    URI but an empty list of artists is reported as not found and
    contributes no URI. *)
Theorem hit_without_artist_is_dropped (sp : client) (song : string)
  (verbose : bool) (calls : list call)
  (result tracks_obj track uri name : value) (more : list value) :
  sp_search sp (List.length calls) song = Some result ->
  item result "tracks" = Some tracks_obj ->
  item tracks_obj "items" = Some (VList (track :: more)) ->
  item track "uri" = Some uri ->
  item track "name" = Some name ->
  item track "artists" = Some (VList []) ->
  fst (search_tracks sp [song] verbose calls) = [] /\
  reported_not_found sp [song] calls = [song].
Proof.
  intros Hs Ht Hi Hu Hn Ha. unfold search_tracks, reported_not_found.
  cbn [search_loop]. rewrite Hs. cbn [obind]. unfold first_track.
  rewrite Ht. cbn [obind]. rewrite Hi. cbn [obind truthy subscript0].
  rewrite Hu. cbn [obind]. rewrite Hn. cbn [obind]. rewrite Ha.
  cbn [obind subscript0]. split; reflexivity.
Qed.

Lemma hit_without_artist_is_dropped_witness :
  fst (search_tracks (mkClient (fun _ _ => Some hit_without_artist)
                               (fun _ _ _ => true))
         ["Some Song - Somebody"] false []) = []
  /\ reported_not_found (mkClient (fun _ _ => Some hit_without_artist)
                                  (fun _ _ _ => true))
       ["Some Song - Somebody"] [] = ["Some Song - Somebody"].
Proof.
  apply (hit_without_artist_is_dropped
           (mkClient (fun _ _ => Some hit_without_artist) (fun _ _ _ => true))
           "Some Song - Somebody" false [] hit_without_artist
           (VDict [ ("items",
                     VList [ VDict [ ("uri", VStr "spotify:track:x");
                                     ("name", VStr "track");
                                     ("artists", VList []) ] ]) ])
           (VDict [ ("uri", VStr "spotify:track:x"); ("name", VStr "track");
                    ("artists", VList []) ])
           (VStr "spotify:track:x") (VStr "track") []);
    reflexivity.
Defined.

End SpotifyFacts.
